(** * fix_html_structure.py: repairing an HTML document nested in a wrapper div

    A shallow embedding of [src/fix_html_structure.py] and the properties of
    its one rewrite: the regular expression search, the splice of groups 1, 3
    and 5, the per-file read/rewrite and the batch loop over a directory. *)

From Stdlib Require Import String Ascii NArith.
From stdpp Require Import base option list gmap strings sorting.

Local Open Scope nat_scope.

(** ** Text

    A Python [str] is a sequence of Unicode code points; a code point is a
    natural number. *)

Abbreviation text := (list N) (only parsing).

Definition text_of (s : string) : text :=
  map N_of_ascii (list_ascii_of_string s).

(** The double quote, code point 34. *)
Definition dquote : string := String (ascii_of_nat 34) EmptyString.

(** The literals of the pattern. *)
Definition DIV_OPEN : text :=
  text_of ("<div class=" ++ dquote ++ "display-inner" ++ dquote ++ ">").
Definition DOCTYPE : text := text_of "<!DOCTYPE html>".
Definition BODY_OPEN : text := text_of "<body".
Definition GT : text := text_of ">".
Definition BODY_CLOSE : text := text_of "</body>".
Definition HTML_CLOSE : text := text_of "</html>".
Definition DIV_CLOSE : text := text_of "</div>".

(** [\s] on a [str] pattern: the code points for which CPython's
    [Py_UNICODE_ISSPACE] holds. *)
Definition is_space (c : N) : bool :=
  ((9 <=? c) && (c <=? 13) || (28 <=? c) && (c <=? 32) || (c =? 133)
   || (c =? 160) || (c =? 5760) || (8192 <=? c) && (c <=? 8202)
   || (c =? 8232) || (c =? 8233) || (c =? 8239) || (c =? 8287)
   || (c =? 12288))%N.

(** ** Regular expressions, as far as the pattern uses them *)

(** A single-character item: [.] under [re.DOTALL] and [\s]. *)
Inductive charset : Type :=
| AnyChar
| SpaceChar.

Definition in_charset (cs : charset) (c : N) : bool :=
  match cs with
  | AnyChar => true
  | SpaceChar => is_space c
  end.

(** [Repeat lazy cs] is [cs*?] when [lazy] holds and [cs*] otherwise. *)
Inductive regex : Type :=
| Str (w : text)
| Repeat (lazy : bool) (cs : charset)
| Cat (r1 r2 : regex)
| Group (n : nat) (r : regex).

(** Does [w] stand at the head of [s]? *)
Fixpoint starts_with (w s : text) : bool :=
  match w, s with
  | [], _ => true
  | _ :: _, [] => false
  | a :: w', b :: s' => (a =? b)%N && starts_with w' s'
  end.

(** The spans of the groups seen so far: number to (start, end). *)
Abbreviation marks := (gmap nat (nat * nat)) (only parsing).

Section Matcher.
(** What a successful match hands back. *)
Context {R : Type}.

(** The backtracking matcher is written against its continuation: [k i s]
    tries the rest of the pattern at offset [i], where [s] is the text
    still ahead. *)

(** [cs*?]: first the rest of the pattern, and one more character only
    when that fails. *)
Fixpoint min_repeat (cs : charset) (k : nat → text → option R)
    (i : nat) (s : text) : option R :=
  match k i s with
  | Some r => Some r
  | None =>
      match s with
      | c :: s' => if in_charset cs c then min_repeat cs k (S i) s' else None
      | [] => None
      end
  end.

(** [cs*]: as many characters as possible, giving them back one at a time
    while the rest of the pattern fails. *)
Fixpoint max_repeat (cs : charset) (k : nat → text → option R)
    (i : nat) (s : text) : option R :=
  match s with
  | c :: s' =>
      if in_charset cs c then
        match max_repeat cs k (S i) s' with
        | Some r => Some r
        | None => k i s
        end
      else k i s
  | [] => k i s
  end.

Fixpoint rmatch (r : regex) (k : nat → text → marks → option R)
    (i : nat) (s : text) (g : marks) : option R :=
  match r with
  | Str w =>
      if starts_with w s then k (i + length w) (drop (length w) s) g
      else None
  | Repeat lazy cs =>
      (if lazy then min_repeat else max_repeat) cs (λ j t, k j t g) i s
  | Cat r1 r2 => rmatch r1 (rmatch r2 k) i s g
  | Group n r' => rmatch r' (λ j t g', k j t (<[n := (i, j)]> g')) i s g
  end.
End Matcher.

(** A match object: [start()], [end()] and the spans of the groups. *)
Record match_obj : Type := MatchObj {
  m_start : nat;
  m_end : nat;
  m_groups : gmap nat (nat * nat)
}.

(** [Pattern.match] at offset [i]. *)
Definition match_at (r : regex) (i : nat) (s : text) : option match_obj :=
  rmatch r (λ j _ g, Some (MatchObj i j g)) i s ∅.

(** [Pattern.search]: the match at the leftmost offset that has one; [s] is
    the text from offset [i] on. *)
Fixpoint search_from (r : regex) (i : nat) (s : text) : option match_obj :=
  match match_at r i s with
  | Some m => Some m
  | None =>
      match s with
      | [] => None
      | _ :: s' => search_from r (S i) s'
      end
  end.

Definition search (r : regex) (content : text) : option match_obj :=
  search_from r 0 content.

(** [content[a:b]] for [0 <= a], [0 <= b]. *)
Definition slice (content : text) (a b : nat) : text :=
  take (b - a) (drop a content).

(** [match.group(n)]: [None] for a group that took no part in the match. *)
Definition group (content : text) (m : match_obj) (n : nat) : option text :=
  match m_groups m !! n with
  | Some (a, b) => Some (slice content a b)
  | None => None
  end.

(** A replacement field of an f-string: [None] prints as its name. *)
Definition fmt (o : option text) : text :=
  match o with
  | Some t => t
  | None => text_of "None"
  end.

(** The pattern of [fix_nested_html], compiled with [re.DOTALL]. *)
Definition pattern : regex :=
  Cat (Group 1 (Cat (Str DIV_OPEN) (Repeat true AnyChar)))
 (Cat (Group 2 (Cat (Str DOCTYPE) (Cat (Repeat true AnyChar)
                (Cat (Str BODY_OPEN) (Cat (Repeat true AnyChar) (Str GT))))))
 (Cat (Group 3 (Repeat true AnyChar))
 (Cat (Group 4 (Cat (Str BODY_CLOSE) (Cat (Repeat false SpaceChar)
                (Str HTML_CLOSE))))
      (Group 5 (Cat (Repeat true AnyChar) (Str DIV_CLOSE)))))).

(** Lines 18 to 23: the text written back for a match [m]. *)
Definition new_content (content : text) (m : match_obj) : text :=
  let pre_inner_div := group content m 1 in
  let inner_body_content := group content m 3 in
  let post_inner_div := group content m 5 in
  let new_embedded_content :=
    fmt pre_inner_div ++ fmt inner_body_content ++ fmt post_inner_div in
  take (m_start m) content ++ new_embedded_content ++ drop (m_end m) content.

(** ** The files under the target directory

    The store keeps, for each name directly inside the target directory, what
    [read_text(encoding='utf-8')] gives for it: the decoded text, or the
    error that reading raises. *)

Inductive io_error : Type :=
| FileNotFoundError
| PermissionError
| UnicodeDecodeError
| IsADirectoryError
| OSError.

(** [File content writable] is a file whose writes succeed when [writable]
    holds and are refused, before anything is touched, when it does not.
    [Fragile content e remains] is a file that reads as [content] and on which
    a write fails with [e] once [open] has truncated it (a full disk, a file
    size limit): what is then on disk is [remains], whatever the failed write
    made of the file. *)
Inductive node : Type :=
| File (content : text) (writable : bool)
| Unreadable (e : io_error)
| Fragile (content : text) (e : io_error) (remains : node).

(** The lines the script prints. *)
Inductive message : Type :=
| FoundNested (file_path : string)
| FixedNested (file_path : string)
| NoHtmlDir
| Processed (files fixed : nat).

(** The reads, writes and prints that the script completed, oldest
    first. *)
Inductive event : Type :=
| EvRead (file_path : string)
| EvWrite (file_path : string) (t : text)
| EvPrint (msg : message).

(** [html_dir] is [None] when the target directory does not exist. *)
Record world : Type := World {
  html_dir : option (gmap string node);
  trace : list event
}.

Definition emit (ev : event) (w : world) : world :=
  World (html_dir w) (trace w ++ [ev]).

(** A computation either returns or raises, and the world it leaves behind
    is kept either way: nothing is rolled back. *)
Inductive outcome (A : Type) : Type :=
| Returned (a : A)
| Raised (e : io_error).
Arguments Returned {A} a.
Arguments Raised {A} e.

Definition io (A : Type) : Type := world → outcome A * world.

#[global] Instance io_ret : MRet io := λ A a w, (Returned a, w).
#[global] Instance io_bind : MBind io := λ A B f c w,
  match c w with
  | (Returned a, w') => f a w'
  | (Raised e, w') => (Raised e, w')
  end.

Definition print (msg : message) : io unit :=
  λ w, (Returned (), emit (EvPrint msg) w).

(** [Path.read_text(encoding='utf-8')]. *)
Definition read_text (file_path : string) : io text :=
  λ w,
    match html_dir w ≫= (.!! file_path) with
    | Some (File content _) | Some (Fragile content _ _) =>
        (Returned content, emit (EvRead file_path) w)
    | Some (Unreadable e) => (Raised e, w)
    | None => (Raised FileNotFoundError, w)
    end.

(** [Path.write_text(t, encoding='utf-8')]: replaces the content of a
    writable file and creates a file that is missing. [open] with mode [w]
    truncates the file before anything is written, so a write that fails
    after that raises with the file already changed. *)
Definition write_text (file_path : string) (t : text) : io unit :=
  λ w,
    match html_dir w with
    | None => (Raised FileNotFoundError, w)
    | Some d =>
        match d !! file_path with
        | Some (File _ false) => (Raised PermissionError, w)
        | Some (Unreadable e) => (Raised e, w)
        | Some (Fragile _ e remains) =>
            (Raised e, World (Some (<[file_path := remains]> d)) (trace w))
        | Some (File _ true) | None =>
            (Returned (),
             World (Some (<[file_path := File t true]> d))
                   (trace w ++ [EvWrite file_path t]))
        end
    end.

Definition fix_nested_html (file_path : string) : io bool :=
  content ← read_text file_path;
  match search pattern content with
  | None => mret false
  | Some m =>
      print (FoundNested file_path);;
      write_text file_path (new_content content m);;
      print (FixedNested file_path);;
      mret true
  end.

(** [Path.exists()] on the target directory. *)
Definition exists_html_dir : io bool :=
  λ w, (Returned (bool_decide (is_Some (html_dir w))), w).

(** Does [name] end with [suffix]? *)
Definition ends_with (suffix name : string) : bool :=
  (String.length suffix <=? String.length name)
  && String.eqb (substring (String.length name - String.length suffix)
                           (String.length suffix) name) suffix.

(** [html_dir.glob('*.html')]: the names directly inside the directory that
    end in [.html], in the order the directory lists them. *)
Definition html_names (d : gmap string node) : list string :=
  filter (λ name, ends_with ".html" name = true) (map_to_list d).*1.

Definition glob_html : io (list string) :=
  λ w, (Returned (from_option html_names [] (html_dir w)), w).

(** Paths of one directory compare as their names do, code point by code
    point. *)
Definition path_le (a b : string) : Prop := String.leb a b = true.

#[global] Instance path_le_dec : RelDecision path_le.
Proof. intros a b. unfold path_le. apply _. Defined.

Definition sorted (l : list string) : list string := merge_sort path_le l.

(** The [for] loop of [main], with [fixed_count] as its accumulator. *)
Fixpoint for_each (html_files : list string) (fixed_count : nat) : io nat :=
  match html_files with
  | [] => mret fixed_count
  | file_path :: rest =>
      fixed ← fix_nested_html file_path;
      for_each rest (if fixed : bool then fixed_count + 1 else fixed_count)
  end.

Definition main : io unit :=
  found ← exists_html_dir;
  if negb found then print NoHtmlDir
  else
    listed ← glob_html;
    let html_files := sorted listed in
    fixed_count ← for_each html_files 0;
    print (Processed (length html_files) fixed_count).

(** ** What the pattern means, and the texts the claims speak of *)

(** [matches r i w g g']: [r] matches the word [w] standing at offset [i],
    and turns the marks [g] into [g']. *)
Inductive matches : regex → nat → text → gmap nat (nat * nat)
    → gmap nat (nat * nat) → Prop :=
| matches_Str w i g : matches (Str w) i w g g
| matches_Repeat lazy cs w i g :
    forallb (in_charset cs) w = true → matches (Repeat lazy cs) i w g g
| matches_Cat r1 r2 i w1 w2 g g1 g2 :
    matches r1 i w1 g g1 →
    matches r2 (i + length w1) w2 g1 g2 →
    matches (Cat r1 r2) i (w1 ++ w2) g g2
| matches_Group n r i w g g' :
    matches r i w g g' →
    matches (Group n r) i w g (<[n := (i, i + length w)]> g').

(** The words of a regular expression, marks left aside. *)
Fixpoint lang (r : regex) (w : text) : Prop :=
  match r with
  | Str w' => w = w'
  | Repeat _ cs => forallb (in_charset cs) w = true
  | Cat r1 r2 => ∃ w1 w2, w = w1 ++ w2 ∧ lang r1 w1 ∧ lang r2 w2
  | Group _ r' => lang r' w
  end.

(** A match was found, and it ends at offset [B] at the latest. *)
Definition within (B : nat) (res : option match_obj) : Prop :=
  ∃ m, res = Some m ∧ m_end m ≤ B.

(** [K'] does no worse than [K], whatever the marks: started earlier than
    a place where [K] matches within [B], [K'] fails or matches within [B];
    started at that place, it matches within [B]. *)
Definition shift_rel (B : nat)
    (K K' : nat → text → gmap nat (nat * nat) → option match_obj) : Prop :=
  (∀ g g' i x s,
     within B (K (i + length x) s g) →
     K' i (x ++ s) g' = None ∨ within B (K' i (x ++ s) g'))
  ∧ (∀ g g' i s, within B (K i s g) → within B (K' i s g')).

(** [r] keeps [shift_rel] between the continuations it is run with, and
    finds a match within [B] wherever one of its words is followed by a
    match within [B] of the continuation. *)
Definition good (B : nat) (r : regex) : Prop :=
  (∀ K K', shift_rel B K K' → shift_rel B (rmatch r K) (rmatch r K'))
  ∧ (∀ K i w s g g',
       shift_rel B K K → lang r w →
       within B (K (i + length w) s g) →
       within B (rmatch r K i (w ++ s) g')).

(** The literal a regular expression has to begin with, if any. *)
Fixpoint head_str (r : regex) : option text :=
  match r with
  | Str w => Some w
  | Repeat _ _ => None
  | Cat r1 _ => head_str r1
  | Group _ r' => head_str r'
  end.

(** Does [w] occur in [s]? *)
Fixpoint occurs (w s : text) : bool :=
  starts_with w s
  || match s with
     | [] => false
     | _ :: s' => occurs w s'
     end.

(** Does [w1] occur in [s], with [w2] occurring somewhere after it? *)
Fixpoint occurs_then (w1 w2 s : text) : bool :=
  starts_with w1 s && occurs w2 (drop (length w1) s)
  || match s with
     | [] => false
     | _ :: s' => occurs_then w1 w2 s'
     end.

(** Is the end of [s] reached inside a tag, after a [<] that no [>]
    closes? [inside] tells whether [s] begins inside one. *)
Fixpoint in_tag (inside : bool) (s : text) : bool :=
  match s with
  | [] => inside
  | c :: s' =>
      in_tag (if (c =? 60)%N then true
              else if (c =? 62)%N then false else inside) s'
  end.

(** Every tag opened in [s] is closed in [s]. *)
Definition tag_closed (s : text) : bool := negb (in_tag false s).

(** The parts of a wrapper div that holds a nested document. *)
Record nested : Type := Nested {
  lead : text;       (* between the wrapper's open tag and the DOCTYPE *)
  prolog : text;     (* between the DOCTYPE and the inner body tag *)
  attrs : text;      (* the attributes of the inner body tag *)
  inner : text;      (* the content of the inner body *)
  gap : text;        (* between the inner body's and html's closing tags *)
  tail : text        (* between the inner document and the wrapper's end *)
}.

(** The opening and the closing boilerplate of the nested document. *)
Definition open_boilerplate (o : nested) : text :=
  DOCTYPE ++ prolog o ++ BODY_OPEN ++ attrs o ++ GT.
Definition close_boilerplate (o : nested) : text :=
  BODY_CLOSE ++ gap o ++ HTML_CLOSE.

(** The wrapper as it stands in the file, and as it should be. *)
Definition wrapper (o : nested) : text :=
  (DIV_OPEN ++ lead o) ++ open_boilerplate o ++ inner o
  ++ close_boilerplate o ++ (tail o ++ DIV_CLOSE).
Definition repaired (o : nested) : text :=
  (DIV_OPEN ++ lead o) ++ inner o ++ (tail o ++ DIV_CLOSE).

(** The spans of the five groups when the wrapper stands at offset [i]. *)
Definition spans (i : nat) (o : nested) : gmap nat (nat * nat) :=
  let e1 := i + length (DIV_OPEN ++ lead o) in
  let e2 := e1 + length (open_boilerplate o) in
  let e3 := e2 + length (inner o) in
  let e4 := e3 + length (close_boilerplate o) in
  let e5 := e4 + length (tail o ++ DIV_CLOSE) in
  <[5 := (e4, e5)]> (<[4 := (e3, e4)]> (<[3 := (e2, e3)]>
    (<[2 := (e1, e2)]> (<[1 := (i, e1)]> ∅)))).

(** The parts are cut where the pattern cuts them: each literal is met for
    the first time where its part ends. *)
Definition well_formed (o : nested) : bool :=
  negb (occurs DOCTYPE (lead o))
  && negb (occurs BODY_OPEN (prolog o))
  && negb (occurs GT (attrs o))
  && negb (occurs BODY_CLOSE (inner o))
  && forallb is_space (gap o)
  && negb (occurs DIV_CLOSE (tail o)).

(** The first character of [w] does not come back later in [w]; then two
    occurrences of [w] cannot overlap. *)
Definition head_unique (w : text) : bool :=
  match w with
  | [] => false
  | c :: w' => negb (existsb (N.eqb c) w')
  end.

(** [w] begins with a character that is no space. *)
Definition head_no_space (w : text) : bool :=
  match w with
  | [] => false
  | c :: _ => negb (is_space c)
  end.

(** [<] or [>]. *)
Definition is_bracket (c : N) : bool := ((c =? 60) || (c =? 62))%N.

(** [w] opens a tag and goes on inside it: it begins with [<] and has no
    bracket after that, but possibly a last [>]. *)
Definition tag_literal (w : text) : bool :=
  match w with
  | [] => false
  | c :: w' => (c =? 60)%N && negb (existsb is_bracket (removelast w'))
  end.

(** None of the four literals of the boilerplate occurs in [s]. *)
Definition boilerplate_free (s : text) : bool :=
  negb (occurs DOCTYPE s) && negb (occurs BODY_OPEN s)
  && negb (occurs BODY_CLOSE s) && negb (occurs HTML_CLOSE s).

(** A text holding only closed tags and none of the boilerplate. *)
Definition clean (s : text) : bool := tag_closed s && boilerplate_free s.

(** [pre ++ wrapper o] begins a text whose first wrapper div is the one
    around the nested document [o], with the parts of [o] cut the lazy way
    and nothing of the boilerplate in what the wrapper keeps. *)
Definition first_nested (pre : text) (o : nested) : bool :=
  negb (occurs DIV_OPEN pre) && well_formed o
  && clean (lead o) && clean (inner o) && clean (tail o).

(** The same, for a text in which the nested document is the only one: the
    kept parts hold closed tags, and from the wrapper on no DOCTYPE is left
    once the boilerplate is gone. *)
Definition single_nested (pre : text) (o : nested) (post : text) : bool :=
  negb (occurs DIV_OPEN pre) && well_formed o
  && tag_closed (lead o) && tag_closed (inner o) && tag_closed (tail o)
  && negb (occurs DOCTYPE (inner o)) && negb (occurs DOCTYPE (tail o))
  && negb (occurs DOCTYPE post).

(** The names read, in the order of reading. *)
Definition reads (tr : list event) : list string :=
  omap (λ ev, match ev with EvRead q => Some q | _ => None end) tr.

(** The names written, in the order of writing. *)
Definition writes (tr : list event) : list string :=
  omap (λ ev, match ev with EvWrite q _ => Some q | _ => None end) tr.

(** The file an event is about. *)
Definition event_path (ev : event) : option string :=
  match ev with
  | EvRead q | EvWrite q _ | EvPrint (FoundNested q)
  | EvPrint (FixedNested q) => Some q
  | EvPrint _ => None
  end.

(** Does the pattern match the text of the file [name]? *)
Definition needs_fix (d : gmap string node) (name : string) : bool :=
  match d !! name with
  | Some (File content _) | Some (Fragile content _ _) =>
      bool_decide (is_Some (search pattern content))
  | _ => false
  end.

(** The files [main] goes through, in its order. *)
Definition html_files (d : gmap string node) : list string :=
  sorted (html_names d).

(** The file [name] can be read, and can be written if the pattern matches
    its text. *)
Definition processable (d : gmap string node) (name : string) : bool :=
  match d !! name with
  | Some (File content wr) =>
      wr || negb (bool_decide (is_Some (search pattern content)))
  | Some (Fragile content _ _) =>
      negb (bool_decide (is_Some (search pattern content)))
  | _ => false
  end.

(** A nested document for the examples. *)
Definition example_nested : nested :=
  Nested (text_of "<p>X</p>") (text_of "<html><head></head>")
         (text_of " class='x'") (text_of "<div>INNER</div>")
         (text_of " ") (text_of "<p>Y</p>").

(** A document nested in a document nested in the wrapper. *)
Definition nested_twice : text :=
  wrapper (Nested [] [] [] (DOCTYPE ++ BODY_OPEN ++ GT ++ text_of "X") []
                  (BODY_CLOSE ++ HTML_CLOSE)).

(** A directory of three HTML files, one of them with a nested document,
    and a file that is no HTML file. *)
Definition three_files : gmap string node :=
  <["b.html" :=
      File (text_of "<main>" ++ wrapper
              (Nested (text_of "X") (text_of "<html>") (text_of " class='x'")
                      (text_of "INNER") [] (text_of "Y"))
            ++ text_of "</main>") true]>
 (<["a.html" := File (text_of "<p>plain</p>") false]>
 (<["c.html" := File [] true]>
 (<["notes.txt" := File (text_of "<!DOCTYPE html>") true]> ∅))).

(** The same directory with [b.html] unreadable. *)
Definition three_files_locked : gmap string node :=
  <["b.html" := Unreadable PermissionError]> three_files.

Definition scenario_in : text :=
  text_of ("<div class=" ++ dquote ++ "display-inner" ++ dquote
           ++ ">X<!DOCTYPE html><html><body class=" ++ dquote ++ "x" ++ dquote
           ++ ">INNER</body></html>Y</div>").
Definition scenario_out : text :=
  text_of ("<div class=" ++ dquote ++ "display-inner" ++ dquote
           ++ ">XINNERY</div>").

(** The white space [s] begins with, and what follows it. *)
Fixpoint take_spaces (s : text) : text :=
  match s with
  | c :: s' => if is_space c then c :: take_spaces s' else []
  | [] => []
  end.

Fixpoint skip_spaces (s : text) : text :=
  match s with
  | c :: s' => if is_space c then skip_spaces s' else s
  | [] => []
  end.

(** Does the closing boilerplate, [</body>], white space, [</html>], stand
    at the head of [s]? *)
Definition closes_at (s : text) : bool :=
  starts_with BODY_CLOSE s
  && starts_with HTML_CLOSE (skip_spaces (drop (length BODY_CLOSE) s)).

(** Does it stand somewhere in [x]? *)
Fixpoint closes_in (x : text) : bool :=
  match x with
  | [] => false
  | _ :: x' => closes_at x || closes_in x'
  end.

(** The wrapper is the first in the text and its parts are cut where the
    pattern cuts them: the lead holds no DOCTYPE, the prolog no [<body], the
    attributes no [>], the inner content no closing boilerplate, the tail no
    [</div>]. *)
Definition lazy_cut (before : text) (o : nested) : bool :=
  negb (occurs DIV_OPEN before)
  && negb (occurs DOCTYPE (lead o))
  && negb (occurs BODY_OPEN (prolog o))
  && negb (occurs GT (attrs o))
  && negb (closes_in (inner o))
  && forallb is_space (gap o)
  && negb (occurs DIV_CLOSE (tail o)).

(** The seven literals of the pattern, in its order. *)
Definition pattern_literals : list text :=
  [DIV_OPEN; DOCTYPE; BODY_OPEN; GT; BODY_CLOSE; HTML_CLOSE; DIV_CLOSE].

(** What a run of [fix_nested_html] makes of a file that it can process. *)
Definition repair_node (nd : node) : node :=
  match nd with
  | File content wr =>
      match search pattern content with
      | Some m => File (new_content content m) true
      | None => File content wr
      end
  | Unreadable e => Unreadable e
  | Fragile content e remains =>
      match search pattern content with
      | Some m => remains
      | None => Fragile content e remains
      end
  end.

(** How often does [w] occur in [s]? *)
Fixpoint count_occurs (w s : text) : nat :=
  (if starts_with w s then 1 else 0)
  + match s with
    | [] => 0
    | _ :: s' => count_occurs w s'
    end.

(** One wrapper around a nested document, and after it a document nested
    in a div that is no wrapper. *)
Definition wrapper_then_side : text :=
  wrapper (Nested [] (text_of "<html>") [] (text_of "A") [] [])
  ++ text_of "<div class='side'><!DOCTYPE html><html><body>B</body></html></div>".


(** A directory with an HTML file that matches but is read-only, between a
    plain file and one that would match. *)
Definition read_only_files : gmap string node :=
  <["b.html" := File scenario_in false]>
 (<["a.html" := File (text_of "<p>plain</p>") true]>
 (<["c.html" := File scenario_in true]> ∅)).

(** Two wrappers with a nested document each. *)
Definition two_wrappers : text :=
  text_of "<main>" ++ wrapper example_nested ++ text_of "<hr>"
  ++ wrapper example_nested ++ text_of "</main>".

(** ** Words and occurrences *)

Lemma starts_with_app (w s : text) : starts_with w (w ++ s) = true.
Proof.
  induction w as [|a w IH]; simpl; [done|].
  by rewrite N.eqb_refl.
Qed.

Lemma starts_with_split (w s : text) :
  starts_with w s = true → s = w ++ drop (length w) s.
Proof.
  revert s. induction w as [|a w IH]; intros [|b s]; simpl; try done.
  intros [Hab Hw]%andb_prop. apply N.eqb_eq in Hab as ->.
  f_equal. by apply IH.
Qed.

Lemma starts_with_iff (w s : text) :
  starts_with w s = true ↔ ∃ t, s = w ++ t.
Proof.
  split.
  - intros H. eexists. by apply starts_with_split.
  - intros [t ->]. apply starts_with_app.
Qed.

Lemma occurs_here (w s : text) : starts_with w s = true → occurs w s = true.
Proof. intros H. destruct s; simpl; rewrite H; done. Qed.

Lemma occurs_iff (w s : text) :
  occurs w s = true ↔ ∃ a b, s = a ++ w ++ b.
Proof.
  split.
  - induction s as [|c s IH]; simpl.
    + rewrite orb_false_r. intros [t ->]%starts_with_iff. by exists [], t.
    + intros [H|H]%orb_prop.
      * apply starts_with_iff in H as [t ->]. by exists [], t.
      * destruct (IH H) as (a & b & ->). by exists (c :: a), b.
  - intros (a & b & ->). induction a as [|c a IH]; simpl.
    + apply occurs_here, starts_with_app.
    + rewrite IH. apply orb_true_r.
Qed.

Lemma occurs_then_here (w1 w2 s : text) :
  starts_with w1 s = true → occurs w2 (drop (length w1) s) = true →
  occurs_then w1 w2 s = true.
Proof. intros H1 H2. destruct s; simpl in *; rewrite H1, H2; done. Qed.

Lemma occurs_then_iff (w1 w2 s : text) :
  occurs_then w1 w2 s = true ↔ ∃ a b c, s = a ++ w1 ++ b ++ w2 ++ c.
Proof.
  split.
  - induction s as [|x s IH]; simpl.
    + rewrite orb_false_r. intros [H1 H2]%andb_prop.
      apply starts_with_split in H1. apply occurs_iff in H2 as (b & c & H2).
      exists [], b, c. simpl. rewrite H1 at 1. by rewrite H2.
    + intros [H|H]%orb_prop.
      * apply andb_prop in H as [H1 H2].
        apply starts_with_split in H1. apply occurs_iff in H2 as (b & c & H2).
        exists [], b, c. simpl. rewrite H1 at 1. by rewrite H2.
      * destruct (IH H) as (a & b & c & ->). by exists (x :: a), b, c.
  - intros (a & b & c & ->). induction a as [|x a IH]; simpl.
    + apply occurs_then_here; [apply starts_with_app|].
      rewrite drop_app_length. apply occurs_iff. by exists b, c.
    + rewrite IH. apply orb_true_r.
Qed.

Lemma occurs_false_middle (w a b c : text) :
  occurs w (a ++ w ++ c) = false → False.
Proof.
  intros H. assert (occurs w (a ++ w ++ c) = true) as H'; [|congruence].
  apply occurs_iff. by exists a, c.
Qed.

(** With no occurrence of [w] in [x], the first place where [w] stands in
    [x ++ w ++ rest] is the end of [x]. *)
Lemma no_early_occurrence (w x rest x1 x2 : text) :
  head_unique w = true → occurs w x = false →
  x = x1 ++ x2 → x2 ≠ [] →
  starts_with w (x2 ++ w ++ rest) = false.
Proof.
  intros Hu Hx -> Hne.
  destruct (starts_with w (x2 ++ w ++ rest)) eqn:E; [exfalso|done].
  apply starts_with_iff in E as [t E].
  apply app_eq_app in E as [l [[-> _]|[Hw Hl]]].
  - rewrite <- (app_nil_r (w ++ l)), <- !app_assoc in Hx.
    by apply occurs_false_middle in Hx.
  - destruct w as [|c w']; [done|]. destruct x2 as [|c' x2']; [done|].
    simpl in Hw, Hu. injection Hw as <- ->.
    destruct l as [|c2 l'].
    + rewrite app_nil_r in Hx.
      assert (occurs (c :: x2') (x1 ++ c :: x2') = true) as H'; [|congruence].
      apply occurs_iff. exists x1, []. by rewrite app_nil_r.
    + simpl in Hl. injection Hl as -> _.
      apply negb_true_iff in Hu. rewrite existsb_app in Hu. simpl in Hu.
      rewrite N.eqb_refl, orb_true_r in Hu. done.
Qed.

(** ** The matcher finds only what the pattern means *)

Section Soundness.
Context {R : Type}.

Lemma min_repeat_sound cs (k : nat → text → option R) i s r :
  min_repeat cs k i s = Some r →
  ∃ w s', s = w ++ s' ∧ forallb (in_charset cs) w = true
          ∧ k (i + length w) s' = Some r.
Proof.
  revert i. induction s as [|c s IH]; intros i; simpl.
  - destruct (k i []) eqn:E; [|done]. intros [= ->].
    exists [], []. by rewrite Nat.add_0_r.
  - destruct (k i (c :: s)) eqn:E.
    + intros [= ->]. exists [], (c :: s). by rewrite Nat.add_0_r.
    + destruct (in_charset cs c) eqn:Hc; [|done].
      intros (w & s' & -> & Hw & Hk)%IH.
      exists (c :: w), s'. simpl. rewrite Hc, Hw.
      by replace (i + S (length w)) with (S i + length w) by lia.
Qed.

Lemma max_repeat_sound cs (k : nat → text → option R) i s r :
  max_repeat cs k i s = Some r →
  ∃ w s', s = w ++ s' ∧ forallb (in_charset cs) w = true
          ∧ k (i + length w) s' = Some r.
Proof.
  assert (∀ i s, k i s = Some r →
    ∃ w s', s = w ++ s' ∧ forallb (in_charset cs) w = true
            ∧ k (i + length w) s' = Some r) as Hstop.
  { intros j t Hk. exists [], t. by rewrite Nat.add_0_r. }
  revert i. induction s as [|c s IH]; intros i; simpl; [by apply Hstop|].
  destruct (in_charset cs c) eqn:Hc; [|by apply Hstop].
  destruct (max_repeat cs k (S i) s) eqn:E; [|by apply Hstop].
  intros [= ->]. apply IH in E as (w & s' & -> & Hw & Hk).
  exists (c :: w), s'. simpl. rewrite Hc, Hw.
  by replace (i + S (length w)) with (S i + length w) by lia.
Qed.

Lemma rmatch_sound r :
  ∀ (k : nat → text → gmap nat (nat * nat) → option R) i s g res,
    rmatch r k i s g = Some res →
    ∃ w s' g', s = w ++ s' ∧ matches r i w g g'
               ∧ k (i + length w) s' g' = Some res.
Proof.
  induction r as [w|lazy cs|r1 IH1 r2 IH2|n r IH]; intros k i s g res; simpl.
  - destruct (starts_with w s) eqn:E; [|done]. intros Hk.
    exists w, (drop (length w) s), g.
    split; [by apply starts_with_split|]. split; [constructor|done].
  - intros H.
    assert (∃ w s', s = w ++ s' ∧ forallb (in_charset cs) w = true
              ∧ k (i + length w) s' g = Some res) as (w & s' & -> & Hw & Hk).
    { destruct lazy; [by apply min_repeat_sound in H
                     |by apply max_repeat_sound in H]. }
    exists w, s', g. split; [done|]. split; [by constructor|done].
  - intros (w1 & s1 & g1 & -> & H1 & H)%IH1.
    apply IH2 in H as (w2 & s2 & g2 & -> & H2 & H).
    exists (w1 ++ w2), s2, g2. rewrite <- app_assoc. split; [done|].
    split; [by econstructor|]. by rewrite length_app, Nat.add_assoc.
  - intros (w & s' & g' & -> & H1 & H)%IH.
    exists w, s', (<[n := (i, i + length w)]> g').
    split; [done|]. split; [by constructor|done].
Qed.
End Soundness.

Lemma match_at_sound r i s m :
  match_at r i s = Some m →
  ∃ w s', s = w ++ s' ∧ matches r i w ∅ (m_groups m)
          ∧ m_start m = i ∧ m_end m = i + length w.
Proof.
  unfold match_at. intros (w & s' & g' & -> & Hm & [= <-])%rmatch_sound.
  by exists w, s'.
Qed.

Lemma search_from_sound r i s m :
  search_from r i s = Some m →
  ∃ before w after, s = before ++ w ++ after
    ∧ matches r (m_start m) w ∅ (m_groups m)
    ∧ m_start m = i + length before ∧ m_end m = m_start m + length w.
Proof.
  revert i. induction s as [|c s IH]; intros i; simpl.
  - destruct (match_at r i []) eqn:E; [|done]. intros [= ->].
    apply match_at_sound in E as (w & s' & Hs & Hm & Hst & Hend).
    exists [], w, s'. rewrite Hst at 1. simpl. split; [done|].
    split; [done|]. split; lia.
  - destruct (match_at r i (c :: s)) eqn:E.
    + intros [= ->].
      apply match_at_sound in E as (w & s' & Hs & Hm & Hst & Hend).
      exists [], w, s'. rewrite Hst at 1. simpl. split; [done|].
      split; [done|]. split; lia.
    + intros (before & w & after & -> & Hm & Hst & Hend)%IH.
      exists (c :: before), w, after. simpl. split; [done|].
      split; [done|]. split; lia.
Qed.

Ltac invert_matches :=
  repeat match goal with
  | H : matches (Cat _ _) _ _ _ _ |- _ => inversion H; subst; clear H
  | H : matches (Group _ _) _ _ _ _ |- _ => inversion H; subst; clear H
  | H : matches (Str _) _ _ _ _ |- _ => inversion H; subst; clear H
  | H : matches (Repeat _ _) _ _ _ _ |- _ => inversion H; subst; clear H
  end.

(** A word the pattern matches is a wrapper around a nested document. *)
Lemma matches_pattern_inv i w g :
  matches pattern i w ∅ g →
  ∃ o, w = wrapper o ∧ forallb is_space (gap o) = true ∧ g = spans i o.
Proof.
  unfold pattern. intros H. invert_matches.
  match goal with
  | |- ∃ _, (_ ++ ?x) ++ (_ ++ ?y ++ _ ++ ?a ++ _) ++ ?c
            ++ (_ ++ ?ws ++ _) ++ ?z ++ _ = _ ∧ _ =>
      exists (Nested x y a c ws z)
  end.
  split; [done|]. split; [done|]. unfold spans. simpl.
  unfold open_boilerplate, close_boilerplate. simpl. done.
Qed.

Lemma slice_middle (a b c : text) i j :
  i = length a → j = i + length b → slice (a ++ b ++ c) i j = b.
Proof.
  intros -> ->. unfold slice. rewrite drop_app_length.
  replace (length a + length b - length a) with (length b) by lia.
  by rewrite take_app_length.
Qed.

(** The groups of a match whose spans are those of a wrapper. *)
Lemma group_spans before o after m :
  m_groups m = spans (length before) o →
  group (before ++ wrapper o ++ after) m 1 = Some (DIV_OPEN ++ lead o)
  ∧ group (before ++ wrapper o ++ after) m 2 = Some (open_boilerplate o)
  ∧ group (before ++ wrapper o ++ after) m 3 = Some (inner o)
  ∧ group (before ++ wrapper o ++ after) m 4 = Some (close_boilerplate o)
  ∧ group (before ++ wrapper o ++ after) m 5 = Some (tail o ++ DIV_CLOSE).
Proof.
  intros Hg. unfold group. rewrite Hg. unfold spans, wrapper.
  set (g1 := DIV_OPEN ++ lead o). set (g2 := open_boilerplate o).
  set (g3 := inner o). set (g4 := close_boilerplate o).
  set (g5 := tail o ++ DIV_CLOSE).
  repeat split.
  - rewrite !lookup_insert_ne, lookup_insert_eq by done. f_equal.
    rewrite <- !app_assoc. by apply slice_middle.
  - rewrite !lookup_insert_ne, lookup_insert_eq by done. f_equal.
    rewrite <- !app_assoc.
    rewrite (app_assoc before g1). apply slice_middle; [|done].
    by rewrite length_app.
  - rewrite !lookup_insert_ne, lookup_insert_eq by done. f_equal.
    rewrite <- !app_assoc.
    rewrite (app_assoc g1 g2), (app_assoc before). apply slice_middle; [|done].
    rewrite !length_app. lia.
  - rewrite !lookup_insert_ne, lookup_insert_eq by done. f_equal.
    rewrite <- !app_assoc.
    rewrite (app_assoc g2 g3), (app_assoc g1), (app_assoc before).
    apply slice_middle; [|done]. rewrite !length_app. lia.
  - rewrite lookup_insert_eq. f_equal.
    rewrite <- !app_assoc.
    rewrite (app_assoc g3 g4), (app_assoc g2), (app_assoc g1),
      (app_assoc before).
    apply slice_middle; [|done]. rewrite !length_app. lia.
Qed.

(** What [search] returns for the pattern, read back on the text. *)
Lemma search_pattern_sound content m :
  search pattern content = Some m →
  ∃ before o after,
    content = before ++ wrapper o ++ after
    ∧ forallb is_space (gap o) = true
    ∧ m_start m = length before
    ∧ m_end m = length before + length (wrapper o)
    ∧ group content m 1 = Some (DIV_OPEN ++ lead o)
    ∧ group content m 2 = Some (open_boilerplate o)
    ∧ group content m 3 = Some (inner o)
    ∧ group content m 4 = Some (close_boilerplate o)
    ∧ group content m 5 = Some (tail o ++ DIV_CLOSE).
Proof.
  intros (before & w & after & -> & Hm & Hst & Hend)%search_from_sound.
  apply matches_pattern_inv in Hm as (o & -> & Hws & Hg).
  simpl in Hst. exists before, o, after.
  split; [done|]. split; [done|]. split; [done|]. split; [lia|].
  apply group_spans. by rewrite Hg, Hst.
Qed.

(** The text written back is the text read with the two spans of
    boilerplate taken out. *)
Lemma new_content_repaired content m before o after :
  content = before ++ wrapper o ++ after →
  m_start m = length before →
  m_end m = length before + length (wrapper o) →
  group content m 1 = Some (DIV_OPEN ++ lead o) →
  group content m 3 = Some (inner o) →
  group content m 5 = Some (tail o ++ DIV_CLOSE) →
  new_content content m = before ++ repaired o ++ after.
Proof.
  intros -> Hst Hend H1 H3 H5. unfold new_content.
  rewrite H1, H3, H5, Hst, Hend. cbn [fmt].
  rewrite take_app_length.
  rewrite (app_assoc before (wrapper o)), <- length_app, drop_app_length.
  unfold repaired. by rewrite <- !app_assoc.
Qed.

(** ** The matcher finds the first wrapper, cut the lazy way *)

Section Completeness.
Context {R : Type}.

Lemma rmatch_head_fail r w :
  head_str r = Some w →
  ∀ (k : nat → text → gmap nat (nat * nat) → option R) i s g,
    starts_with w s = false → rmatch r k i s g = None.
Proof.
  induction r as [w'|lazy cs|r1 IH1 r2 IH2|n r IH]; simpl; try done.
  - intros [= ->] k i s g ->. done.
  - intros Hh k i s g Hs. by apply IH1.
  - intros Hh k i s g Hs. by apply IH.
Qed.

Lemma min_repeat_here cs (k : nat → text → option R) i s r :
  k i s = Some r → min_repeat cs k i s = Some r.
Proof. intros H. destruct s; simpl; by rewrite H. Qed.

Lemma min_repeat_first (k : nat → text → option R) x s i r :
  (∀ x1 x2, x = x1 ++ x2 → x2 ≠ [] → k (i + length x1) (x2 ++ s) = None) →
  k (i + length x) s = Some r →
  min_repeat AnyChar k i (x ++ s) = Some r.
Proof.
  revert i. induction x as [|c x IH]; intros i Hfail Hk.
  - rewrite Nat.add_0_r in Hk. by apply min_repeat_here.
  - pose proof (Hfail [] (c :: x) eq_refl ltac:(done)) as H0.
    simpl in H0. rewrite Nat.add_0_r in H0. simpl. rewrite H0.
    apply IH.
    + intros x1 x2 -> Hne.
      replace (S i + length x1) with (i + length (c :: x1)) by (simpl; lia).
      by apply Hfail.
    + by replace (S i + length x) with (i + length (c :: x)) by (simpl; lia).
Qed.

(** [.*?] before a literal stops at the literal's first occurrence. *)
Lemma min_repeat_until (k : nat → text → option R) w x rest i r :
  head_unique w = true → occurs w x = false →
  (∀ j t, starts_with w t = false → k j t = None) →
  k (i + length x) (w ++ rest) = Some r →
  min_repeat AnyChar k i (x ++ w ++ rest) = Some r.
Proof.
  intros Hu Hx Hk Hr. apply min_repeat_first; [|done].
  intros x1 x2 E Hne. apply Hk. by eapply no_early_occurrence.
Qed.

(** [\s*] before a character that is no space takes all the spaces. *)
Lemma max_repeat_spaces (k : nat → text → option R) ws c s i r :
  forallb is_space ws = true → is_space c = false →
  k (i + length ws) (c :: s) = Some r →
  max_repeat SpaceChar k i (ws ++ c :: s) = Some r.
Proof.
  revert i. induction ws as [|a ws IH]; intros i Hws Hc Hk; simpl in *.
  - rewrite Hc. by rewrite Nat.add_0_r in Hk.
  - apply andb_prop in Hws as [-> Hws].
    rewrite (IH (S i)); [done|done|done|].
    by replace (S i + length ws) with (i + S (length ws)) by lia.
Qed.

Lemma max_repeat_spaces_until (k : nat → text → option R) ws w s i r :
  forallb is_space ws = true → head_no_space w = true →
  k (i + length ws) (w ++ s) = Some r →
  max_repeat SpaceChar k i (ws ++ w ++ s) = Some r.
Proof.
  destruct w as [|c w]; [done|]. intros Hws Hc%negb_true_iff.
  by apply max_repeat_spaces.
Qed.
End Completeness.

Lemma search_from_here r i s m :
  match_at r i s = Some m → search_from r i s = Some m.
Proof. intros H. destruct s; simpl; by rewrite H. Qed.

Lemma search_from_skip r w pre s i :
  head_str r = Some w → head_unique w = true → occurs w pre = false →
  search_from r i (pre ++ w ++ s) = search_from r (i + length pre) (w ++ s).
Proof.
  intros Hh Hu. revert i. induction pre as [|c pre IH]; intros i Hpre.
  - by rewrite Nat.add_0_r.
  - simpl. unfold match_at at 1.
    rewrite (rmatch_head_fail r w Hh).
    + rewrite IH; [f_equal; lia|].
      simpl in Hpre. by apply orb_false_elim in Hpre as [_ ?].
    + apply (no_early_occurrence w (c :: pre) s [] (c :: pre)); done.
Qed.

Lemma literal_heads :
  head_unique DIV_OPEN = true ∧ head_unique DOCTYPE = true
  ∧ head_unique BODY_OPEN = true ∧ head_unique GT = true
  ∧ head_unique BODY_CLOSE = true ∧ head_unique HTML_CLOSE = true
  ∧ head_unique DIV_CLOSE = true.
Proof. vm_compute. done. Qed.

Ltac lazy_until Hu Hx :=
  apply min_repeat_until;
  [exact Hu | exact Hx | intros ? ? Hf; rewrite Hf; reflexivity
  | cbv beta; rewrite starts_with_app, ?drop_app_length].

Lemma match_at_wrapper o post i :
  well_formed o = true →
  match_at pattern i (wrapper o ++ post)
  = Some (MatchObj i (i + length (wrapper o)) (spans i o)).
Proof.
  destruct o as [x y a c ws z]. unfold well_formed.
  cbn [lead prolog attrs inner gap tail]. intros H. repeat (apply andb_prop in H as [H ?]).
  repeat match goal with H : negb _ = true |- _ =>
    apply negb_true_iff in H end.
  destruct literal_heads as (_ & Hu2 & Hu3 & Hu4 & Hu5 & _ & Hu7).
  unfold match_at, pattern, wrapper, open_boilerplate, close_boilerplate.
  cbn [lead prolog attrs inner gap tail].
  rewrite <- !app_assoc. cbn [rmatch].
  rewrite starts_with_app, drop_app_length.
  lazy_until Hu2 H. lazy_until Hu3 H4. lazy_until Hu4 H3. lazy_until Hu5 H2.
  apply max_repeat_spaces_until; [done|done|].
  cbv beta. rewrite starts_with_app, drop_app_length.
  lazy_until Hu7 H0.
  unfold spans, open_boilerplate, close_boilerplate.
  cbn [lead prolog attrs inner gap tail].
  rewrite !length_app.
  repeat (f_equal; try lia).
Qed.

(** [search] on a text whose first wrapper holds a nested document. *)
Lemma search_first_wrapper pre o post :
  occurs DIV_OPEN pre = false → well_formed o = true →
  search pattern (pre ++ wrapper o ++ post)
  = Some (MatchObj (length pre) (length pre + length (wrapper o))
                   (spans (length pre) o)).
Proof.
  intros Hpre Ho. unfold search.
  destruct literal_heads as (Hu1 & _).
  unfold wrapper at 1. rewrite <- !app_assoc.
  rewrite (search_from_skip pattern DIV_OPEN) by done.
  apply search_from_here. simpl.
  pose proof (match_at_wrapper o post (length pre) Ho) as H.
  unfold wrapper at 1 in H. by rewrite <- !app_assoc in H.
Qed.

(** ** The match ends inside the first wrapper, however it is cut *)

Lemma shift_window (L l s t : text) :
  l ++ L ++ s = L ++ t → ∃ z, t = z ++ s ∧ length z = length l.
Proof.
  intros E. exists (drop (length L) (l ++ L)). split.
  - rewrite <- drop_app_le by (rewrite length_app; lia).
    by rewrite <- app_assoc, E, drop_app_length.
  - rewrite length_drop, length_app. lia.
Qed.

Lemma min_repeat_shift B K K' g g' :
  shift_rel B K K' →
  ∀ x i s,
    within B (K (i + length x) s g) →
    within B (min_repeat AnyChar (λ j t, K' j t g') i (x ++ s)).
Proof.
  intros [Hweak Hsame]. induction x as [|c x IH]; intros i s H.
  - rewrite Nat.add_0_r in H. apply (Hsame g g') in H as (m & Hm & Hle).
    exists m. split; [|done]. by apply min_repeat_here.
  - destruct (Hweak g g' i (c :: x) s H) as [Hnone|(m & Hm & Hle)].
    + simpl in *. rewrite Hnone. apply IH.
      by replace (S i + length x) with (i + S (length x)) by lia.
    + exists m. split; [|done]. by apply min_repeat_here.
Qed.

Lemma good_Str B L : good B (Str L).
Proof.
  split.
  - intros K K' [Hweak Hsame]. split.
    + intros g g' i x s (m & Hm & Hle). cbn [rmatch] in *.
      destruct (starts_with L s) eqn:E; [|done].
      apply starts_with_split in E.
      destruct (starts_with L (x ++ s)) eqn:E'; [|by left].
      apply starts_with_split in E'. rewrite E in E' at 1.
      apply shift_window in E' as (z & -> & Hz).
      apply (Hweak g). exists m. split; [|done].
      by replace (i + length L + length z)
        with (i + length x + length L) by lia.
    + intros g g' i s (m & Hm & Hle). cbn [rmatch] in *.
      destruct (starts_with L s); [|done]. apply (Hsame g). by exists m.
  - intros K i w s g g' [_ Hsame] -> H. cbn [rmatch lang].
    rewrite starts_with_app, drop_app_length. by apply (Hsame g).
Qed.

Lemma good_lazy B : good B (Repeat true AnyChar).
Proof.
  split.
  - intros K K' Hrel. split.
    + intros g g' i x s (m & Hm & Hle). right. cbn [rmatch] in *.
      apply min_repeat_sound in Hm as (w & s' & -> & _ & Hm).
      rewrite app_assoc. apply (min_repeat_shift B K K' g g' Hrel).
      exists m. split; [|done]. by rewrite length_app, Nat.add_assoc.
    + intros g g' i s (m & Hm & Hle). cbn [rmatch] in *.
      apply min_repeat_sound in Hm as (w & s' & -> & _ & Hm).
      apply (min_repeat_shift B K K' g g' Hrel). by exists m.
  - intros K i w s g g' Hrel _ H. cbn [rmatch].
    by apply (min_repeat_shift B K K g g' Hrel).
Qed.

Lemma good_Cat B r1 r2 : good B r1 → good B r2 → good B (Cat r1 r2).
Proof.
  intros [Hr1 Hc1] [Hr2 Hc2]. split.
  - intros K K' Hrel. cbn [rmatch]. by apply Hr1, Hr2.
  - intros K i w s g g' Hrel (w1 & w2 & -> & H1 & H2) H. cbn [rmatch].
    rewrite <- app_assoc. apply (Hc1 _ _ _ _ g); [by apply Hr2|done|].
    apply (Hc2 _ _ _ _ g); [done|done|].
    by rewrite <- Nat.add_assoc, <- length_app.
Qed.

Lemma good_Group B n r : good B r → good B (Group n r).
Proof.
  intros [Hr Hc].
  assert (∀ K K' a b, shift_rel B K K' →
            shift_rel B (λ j t g1, K j t (<[n := (a, j)]> g1))
                        (λ j t g1, K' j t (<[n := (b, j)]> g1))) as Hmark.
  { intros K K' a b [Hweak Hsame]. split.
    - intros g g' i x s H. by apply (Hweak _ _ _ _ _ H).
    - intros g g' i s H. by apply (Hsame _ _ _ _ H). }
  split.
  - intros K K' Hrel. split.
    + intros g g' i x s H. cbn [rmatch] in *.
      by apply (proj1 (Hr _ _ (Hmark K K' (i + length x) i Hrel)) g).
    + intros g g' i s H. cbn [rmatch] in *.
      by apply (proj2 (Hr _ _ (Hmark K K' i i Hrel)) g).
  - intros K i w s g g' Hrel Hw H. cbn [rmatch].
    apply (Hc _ _ _ _ g); [by apply Hmark|done|].
    by apply (proj2 Hrel g).
Qed.

Lemma forallb_app_inv (f : N → bool) (a b : text) :
  forallb f (a ++ b) = true → forallb f a = true ∧ forallb f b = true.
Proof. rewrite forallb_app. apply andb_prop. Qed.

Lemma good_spaces_Str B L :
  head_no_space L = true → good B (Cat (Repeat false SpaceChar) (Str L)).
Proof.
  intros HL.
  assert (∀ (K : nat → text → gmap nat (nat * nat) → option match_obj)
            i s g m,
            rmatch (Cat (Repeat false SpaceChar) (Str L)) K i s g = Some m →
            ∃ ws s2, s = ws ++ L ++ s2 ∧ forallb is_space ws = true
                     ∧ K (i + length ws + length L) s2 g = Some m) as Hinv.
  { intros K i s g m Hm. cbn [rmatch] in Hm.
    apply max_repeat_sound in Hm as (ws & s' & -> & Hws & Hm).
    destruct (starts_with L s') eqn:E; [|done].
    apply starts_with_split in E. exists ws, (drop (length L) s').
    by rewrite <- E. }
  assert (∀ (K : nat → text → gmap nat (nat * nat) → option match_obj)
            i ws s2 g m,
            forallb is_space ws = true →
            K (i + length ws + length L) s2 g = Some m →
            rmatch (Cat (Repeat false SpaceChar) (Str L)) K i
                   (ws ++ L ++ s2) g = Some m) as Hrun.
  { intros K i ws s2 g m Hws Hm. cbn [rmatch].
    apply max_repeat_spaces_until; [done|done|].
    by rewrite starts_with_app, drop_app_length. }
  split.
  - intros K K' [Hweak Hsame]. split.
    + intros g g' i x s (m & Hm & Hle).
      apply Hinv in Hm as (ws & s2 & -> & Hws & Hm).
      destruct (rmatch (Cat (Repeat false SpaceChar) (Str L)) K' i
                  (x ++ ws ++ L ++ s2) g') as [m'|] eqn:Hm'; [right|by left].
      exists m'. split; [done|].
      apply Hinv in Hm' as (ws' & s2' & E & Hws' & Hm').
      rewrite app_assoc in E.
      apply app_eq_app in E as [l [[E1 E2]|[E1 E2]]].
      * symmetry in E2. apply shift_window in E2 as (z & -> & Hz).
        assert (length x + length ws = length ws' + length l) as Hlen.
        { by rewrite <- !length_app, E1. }
        destruct (Hweak g g' (i + length ws' + length L) z s2)
          as [Hnone|(m2 & Hm2 & Hle2)]; [|congruence|congruence].
        exists m. split; [|done]. rewrite <- Hm. f_equal. lia.
      * destruct l as [|c l].
        { rewrite app_nil_r in E1. simpl in E2.
          apply app_inv_head in E2 as <-. subst ws'.
          destruct (Hweak g g' (i + length (x ++ ws) + length L) [] s2)
            as [Hnone|(m2 & Hm2 & Hle2)]; simpl in *; [|congruence|congruence].
          exists m. split; [|done]. rewrite <- Hm. f_equal.
          rewrite length_app. lia. }
        exfalso. subst ws'.
        apply forallb_app_inv in Hws' as [_ Hc]. simpl in Hc.
        apply andb_prop in Hc as [Hc _].
        destruct L as [|c' L']; [done|]. simpl in E2, HL.
        injection E2 as -> _. by rewrite Hc in HL.
    + intros g g' i s (m & Hm & Hle).
      apply Hinv in Hm as (ws & s2 & -> & Hws & Hm).
      destruct (Hsame g g' (i + length ws + length L) s2) as (m' & Hm' & Hle');
        [by exists m|].
      exists m'. split; [by apply Hrun|done].
  - intros K i w s g g' [_ Hsame] (ws & w2 & -> & Hws & ->) H.
    cbn [lang in_charset] in Hws.
    destruct (Hsame g g' (i + length ws + length L) s) as (m' & Hm' & Hle').
    { by rewrite <- Nat.add_assoc, <- length_app. }
    exists m'. split; [|done]. rewrite <- !app_assoc. by apply Hrun.
Qed.

Lemma good_pattern B : good B pattern.
Proof.
  unfold pattern.
  repeat first
    [ apply good_spaces_Str; vm_compute; reflexivity
    | apply good_Cat | apply good_Group | apply good_Str | apply good_lazy ].
Qed.

Lemma shift_rel_final B a b :
  shift_rel B (λ j _ g, Some (MatchObj a j g)) (λ j _ g, Some (MatchObj b j g)).
Proof.
  split.
  - intros g g' i x s (m & [= <-] & Hle). right. eexists. split; [done|].
    simpl in *. lia.
  - intros g g' i s (m & [= <-] & Hle). eexists. split; [done|]. done.
Qed.

Lemma forallb_any (w : text) : forallb (in_charset AnyChar) w = true.
Proof. by induction w. Qed.

Lemma lang_wrapper o :
  forallb is_space (gap o) = true → lang pattern (wrapper o).
Proof.
  intros Hws. unfold pattern, wrapper, open_boilerplate, close_boilerplate.
  cbn [lang].
  repeat (eexists _, _; split; [reflexivity|split]);
    try done; apply forallb_any.
Qed.

Lemma search_from_within B pre :
  ∀ i s,
    within B (match_at pattern (i + length pre) s) →
    within B (search_from pattern i (pre ++ s)).
Proof.
  induction pre as [|c pre IH]; intros i s H.
  - rewrite Nat.add_0_r in H. destruct H as (m & Hm & Hle).
    exists m. split; [by apply search_from_here|done].
  - pose proof (proj1 (good_pattern B) _ _
                  (shift_rel_final B (i + length (c :: pre)) i)) as [Hweak _].
    destruct (Hweak ∅ ∅ i (c :: pre) s H) as [Hnone|(m & Hm & Hle)].
    + rewrite <- app_comm_cons in *. cbn [search_from].
      unfold match_at at 1. rewrite Hnone.
      apply IH. by replace (S i + length pre) with (i + S (length pre)) by lia.
    + exists m. split; [by apply search_from_here|done].
Qed.

(** Whenever the text holds a wrapper around a nested document, however
    its parts are cut, [search] finds a match, and that match ends where
    the wrapper ends at the latest. *)
Lemma search_within pre o rest :
  forallb is_space (gap o) = true →
  within (length pre + length (wrapper o))
         (search pattern (pre ++ wrapper o ++ rest)).
Proof.
  intros Hws. apply (search_from_within _ pre 0).
  apply (proj2 (good_pattern _) _ _ _ _ ∅ ∅).
  - apply shift_rel_final.
  - by apply lang_wrapper.
  - eexists. split; [done|]. simpl. lia.
Qed.

(** The pattern matches somewhere in a text exactly when the text holds a
    wrapper around a nested document. *)
Lemma search_is_Some_iff content :
  is_Some (search pattern content)
  ↔ ∃ before o after,
      content = before ++ wrapper o ++ after
      ∧ forallb is_space (gap o) = true.
Proof.
  split.
  - intros [m Hm]. apply search_pattern_sound in Hm
      as (before & o & after & E & Hws & _). by exists before, o, after.
  - intros (before & o & after & -> & Hws).
    destruct (search_within before o after Hws) as (m & Hm & _). by exists m.
Qed.

(** ** Tags: a literal cannot arise across the seam of two closed texts *)

Lemma in_tag_app b (s1 s2 : text) :
  in_tag b (s1 ++ s2) = in_tag (in_tag b s1) s2.
Proof. revert b. induction s1 as [|c s1 IH]; intros b; simpl; [done|apply IH]. Qed.

Lemma in_tag_plain b (s : text) :
  existsb is_bracket s = false → in_tag b s = b.
Proof.
  revert b. induction s as [|c s IH]; intros b; simpl; [done|].
  intros [Hc Hs]%orb_false_elim. unfold is_bracket in Hc.
  apply orb_false_elim in Hc as [-> ->]. by apply IH.
Qed.

Lemma tag_closed_app (a b : text) :
  tag_closed a = true → tag_closed b = true → tag_closed (a ++ b) = true.
Proof.
  unfold tag_closed. intros Ha%negb_true_iff Hb.
  by rewrite in_tag_app, Ha.
Qed.

Lemma occurs_app_closed (w a b : text) :
  tag_literal w = true → tag_closed a = true →
  occurs w a = false → occurs w b = false → occurs w (a ++ b) = false.
Proof.
  intros Hw Ha Hna Hnb.
  destruct (occurs w (a ++ b)) eqn:E; [exfalso|done].
  apply occurs_iff in E as (p & q & E).
  apply app_eq_app in E as [l [[-> E]|[-> ->]]].
  - apply app_eq_app in E as [l' [[-> ->]|[-> ->]]].
    + destruct l as [|c l0].
      { simpl in Hnb. rewrite <- (app_nil_l (l' ++ q)) in Hnb.
        by apply occurs_false_middle in Hnb. }
      destruct l' as [|c' l1].
      { rewrite app_nil_r in Hna. rewrite <- (app_nil_r (c :: l0)) in Hna at 2.
        by apply occurs_false_middle in Hna. }
      simpl in Hw. apply andb_prop in Hw as [Hc%N.eqb_eq Hl].
      subst c. apply negb_true_iff in Hl.
      rewrite removelast_app, existsb_app in Hl by done.
      apply orb_false_elim in Hl as [Hl _].
      unfold tag_closed in Ha. rewrite in_tag_app in Ha. simpl in Ha.
      by rewrite in_tag_plain in Ha.
    + by apply occurs_false_middle in Hna.
  - by apply occurs_false_middle in Hnb.
Qed.

Lemma boilerplate_literals :
  tag_literal DOCTYPE = true ∧ tag_literal BODY_OPEN = true
  ∧ tag_literal BODY_CLOSE = true ∧ tag_literal HTML_CLOSE = true.
Proof. vm_compute. done. Qed.

Lemma boilerplate_free_iff (s : text) :
  boilerplate_free s = true
  ↔ occurs DOCTYPE s = false ∧ occurs BODY_OPEN s = false
    ∧ occurs BODY_CLOSE s = false ∧ occurs HTML_CLOSE s = false.
Proof.
  unfold boilerplate_free. rewrite !andb_true_iff, !negb_true_iff. tauto.
Qed.

Lemma clean_app (a b : text) :
  clean a = true → clean b = true → clean (a ++ b) = true.
Proof.
  unfold clean. intros [Ha Hfa]%andb_prop [Hb Hfb]%andb_prop.
  rewrite tag_closed_app by done. cbn [andb].
  apply boilerplate_free_iff in Hfa as (? & ? & ? & ?).
  apply boilerplate_free_iff in Hfb as (? & ? & ? & ?).
  destruct boilerplate_literals as (? & ? & ? & ?).
  apply boilerplate_free_iff. repeat split; by apply occurs_app_closed.
Qed.

Lemma clean_wrapper_tags : clean DIV_OPEN = true ∧ clean DIV_CLOSE = true.
Proof. vm_compute. done. Qed.

(** What the repair leaves of the wrapper is clean when its parts are. *)
Lemma clean_repaired o :
  clean (lead o) = true → clean (inner o) = true → clean (tail o) = true →
  clean (repaired o) = true.
Proof.
  intros Hl Hi Ht. destruct clean_wrapper_tags as [Ho Hc].
  unfold repaired. repeat apply clean_app; done.
Qed.

Lemma first_nested_parts pre o :
  first_nested pre o = true →
  occurs DIV_OPEN pre = false ∧ well_formed o = true
  ∧ clean (lead o) = true ∧ clean (inner o) = true ∧ clean (tail o) = true.
Proof.
  unfold first_nested. rewrite !andb_true_iff, negb_true_iff. tauto.
Qed.

(** After the first occurrence of [w1], which does not lie within [pre]. *)
Lemma occurs_then_after (w1 w2 pre s : text) :
  occurs w1 pre = false → occurs_then w1 w2 (pre ++ s) = true →
  occurs w2 s = true.
Proof.
  intros Hpre (a & b & c & E)%occurs_then_iff.
  rewrite (app_assoc a w1) in E.
  apply app_eq_app in E as [l [[-> _]|[_ ->]]].
  - rewrite <- app_assoc in Hpre. by apply occurs_false_middle in Hpre.
  - apply occurs_iff. exists (l ++ b), c. by rewrite <- app_assoc.
Qed.

Lemma search_Some_occurs_then content m :
  search pattern content = Some m →
  occurs_then DIV_OPEN DOCTYPE content = true.
Proof.
  intros (before & o & after & -> & _)%search_pattern_sound.
  apply occurs_then_iff.
  exists before, (lead o),
    (prolog o ++ BODY_OPEN ++ attrs o ++ GT ++ inner o
     ++ close_boilerplate o ++ (tail o ++ DIV_CLOSE) ++ after).
  unfold wrapper, open_boilerplate. by rewrite <- !app_assoc.
Qed.

(** ** One file *)

Lemma read_text_file d tr file_path content wr :
  d !! file_path = Some (File content wr) →
  read_text file_path (World (Some d) tr)
  = (Returned content, World (Some d) (tr ++ [EvRead file_path])).
Proof. intros H. unfold read_text. cbn. by rewrite H. Qed.

Lemma fix_nested_html_no_match d tr file_path content wr :
  d !! file_path = Some (File content wr) →
  search pattern content = None →
  fix_nested_html file_path (World (Some d) tr)
  = (Returned false, World (Some d) (tr ++ [EvRead file_path])).
Proof.
  intros Hd Hs. unfold fix_nested_html, mbind, io_bind.
  rewrite (read_text_file _ _ _ _ _ Hd), Hs. done.
Qed.

Lemma fix_nested_html_match d tr file_path content m :
  d !! file_path = Some (File content true) →
  search pattern content = Some m →
  fix_nested_html file_path (World (Some d) tr)
  = (Returned true,
     World (Some (<[file_path := File (new_content content m) true]> d))
           (tr ++ [EvRead file_path; EvPrint (FoundNested file_path);
                   EvWrite file_path (new_content content m);
                   EvPrint (FixedNested file_path)])).
Proof.
  intros Hd Hs. unfold fix_nested_html, mbind, io_bind.
  rewrite (read_text_file _ _ _ _ _ Hd), Hs.
  unfold print, write_text, emit, mret, io_ret. cbn. rewrite Hd.
  cbn [html_dir trace]. by rewrite <- !app_assoc.
Qed.

Lemma fix_nested_html_unreadable d tr file_path e :
  d !! file_path = Some (Unreadable e) →
  fix_nested_html file_path (World (Some d) tr)
  = (Raised e, World (Some d) tr).
Proof.
  intros Hd. unfold fix_nested_html, mbind, io_bind, read_text. cbn.
  by rewrite Hd.
Qed.

Lemma read_text_fragile (d : gmap string node) tr file_path content e remains :
  d !! file_path = Some (Fragile content e remains) →
  read_text file_path (World (Some d) tr)
  = (Returned content, World (Some d) (tr ++ [EvRead file_path])).
Proof. intros H. unfold read_text. cbn. by rewrite H. Qed.

Lemma fix_nested_html_fragile_no_match (d : gmap string node) tr file_path
    content e remains :
  d !! file_path = Some (Fragile content e remains) →
  search pattern content = None →
  fix_nested_html file_path (World (Some d) tr)
  = (Returned false, World (Some d) (tr ++ [EvRead file_path])).
Proof.
  intros Hd Hs. unfold fix_nested_html, mbind, io_bind.
  rewrite (read_text_fragile _ _ _ _ _ _ Hd), Hs. done.
Qed.

(** A write that fails after the file was truncated: the error is raised
    and the file holds what the failed write left. *)
Lemma fix_nested_html_fragile_match (d : gmap string node) tr file_path
    content e remains m :
  d !! file_path = Some (Fragile content e remains) →
  search pattern content = Some m →
  fix_nested_html file_path (World (Some d) tr)
  = (Raised e,
     World (Some (<[file_path := remains]> d))
           (tr ++ [EvRead file_path; EvPrint (FoundNested file_path)])).
Proof.
  intros Hd Hs. unfold fix_nested_html, mbind, io_bind.
  rewrite (read_text_fragile _ _ _ _ _ _ Hd), Hs.
  unfold print, write_text, emit, mret, io_ret. cbn. rewrite Hd.
  cbn [html_dir trace]. by rewrite <- !app_assoc.
Qed.

(** [fix_nested_html] on a file whose first wrapper holds a nested
    document. *)
Lemma fix_nested_html_first_wrapper (d : gmap string node) tr file_path
    pre o post :
  occurs DIV_OPEN pre = false → well_formed o = true →
  d !! file_path = Some (File (pre ++ wrapper o ++ post) true) →
  fix_nested_html file_path (World (Some d) tr)
  = (Returned true,
     World (Some (<[file_path := File (pre ++ repaired o ++ post) true]> d))
           (tr ++ [EvRead file_path; EvPrint (FoundNested file_path);
                   EvWrite file_path (pre ++ repaired o ++ post);
                   EvPrint (FixedNested file_path)])).
Proof.
  intros Hpre Ho Hd.
  pose proof (search_first_wrapper pre o post Hpre Ho) as Hs.
  rewrite (fix_nested_html_match d tr file_path _ _ Hd Hs).
  assert (new_content (pre ++ wrapper o ++ post)
            (MatchObj (length pre) (length pre + length (wrapper o))
                      (spans (length pre) o))
          = pre ++ repaired o ++ post) as ->; [|done].
  apply new_content_repaired; try done; by apply group_spans.
Qed.

(** One run on a text that holds a wrapper around a nested document takes
    two spans out of the text up to the end of that wrapper, and leaves the
    text after it alone. *)
Lemma fix_nested_html_up_to_wrapper (d : gmap string node) tr file_path
    pre o rest :
  forallb is_space (gap o) = true →
  d !! file_path = Some (File (pre ++ wrapper o ++ rest) true) →
  ∃ a g2 b g4 c,
    pre ++ wrapper o = a ++ g2 ++ b ++ g4 ++ c
    ∧ g2 ≠ [] ∧ g4 ≠ []
    ∧ fix_nested_html file_path (World (Some d) tr)
      = (Returned true,
         World (Some (<[file_path := File ((a ++ b ++ c) ++ rest) true]> d))
               (tr ++ [EvRead file_path; EvPrint (FoundNested file_path);
                       EvWrite file_path ((a ++ b ++ c) ++ rest);
                       EvPrint (FixedNested file_path)])).
Proof.
  intros Hws Hd.
  destruct (search_within pre o rest Hws) as (m & Hs & Hle).
  rewrite (fix_nested_html_match d tr file_path _ m Hd Hs).
  destruct (search_pattern_sound _ _ Hs)
    as (before & o' & after & E & _ & Hst & Hend & H1 & _ & H3 & _ & H5).
  rewrite (new_content_repaired _ m before o' after E Hst Hend H1 H3 H5).
  rewrite Hend in Hle.
  rewrite !app_assoc in E. apply app_eq_app in E as [l [[E1 E2]|[E1 E2]]].
  - exists (before ++ DIV_OPEN ++ lead o'), (open_boilerplate o'), (inner o'),
      (close_boilerplate o'), (tail o' ++ DIV_CLOSE ++ l).
    split; [|split; [|split]].
    + rewrite E1. unfold wrapper. by rewrite <- !app_assoc.
    + unfold open_boilerplate. by destruct DOCTYPE eqn:E.
    + unfold close_boilerplate. by destruct BODY_CLOSE eqn:E.
    + rewrite E2. unfold repaired. by rewrite <- !app_assoc.
  - assert (l = []) as ->.
    { apply (f_equal length) in E1. rewrite !length_app in E1.
      apply nil_length_inv. lia. }
    rewrite app_nil_r in E1. simpl in E2. subst rest.
    exists (before ++ DIV_OPEN ++ lead o'), (open_boilerplate o'), (inner o'),
      (close_boilerplate o'), (tail o' ++ DIV_CLOSE).
    split; [|split; [|split]].
    + rewrite <- E1. unfold wrapper. by rewrite <- !app_assoc.
    + unfold open_boilerplate. by destruct DOCTYPE eqn:E.
    + unfold close_boilerplate. by destruct BODY_CLOSE eqn:E.
    + unfold repaired. by rewrite <- !app_assoc.
Qed.

(** The scenario of the specification, evaluated. *)
Example scenario_text :
  new_content scenario_in <$> search pattern scenario_in = Some scenario_out.
Proof. vm_compute. reflexivity. Qed.

(** ** The claims about one file *)

(** C1: a file whose text is the scenario's input is rewritten to the
    scenario's output, [fix_nested_html] returns [True] for it, and the loop
    of [main] over that one file adds 1 to [fixed_count]. *)
Theorem scenario_file_fixed (d : gmap string node) tr file_path :
  d !! file_path = Some (File scenario_in true) →
  fix_nested_html file_path (World (Some d) tr)
  = (Returned true,
     World (Some (<[file_path := File scenario_out true]> d))
           (tr ++ [EvRead file_path; EvPrint (FoundNested file_path);
                   EvWrite file_path scenario_out;
                   EvPrint (FixedNested file_path)]))
  ∧ ∀ fixed_count,
      (for_each [file_path] fixed_count (World (Some d) tr)).1
      = Returned (fixed_count + 1).
Proof.
  intros Hd. pose proof scenario_text as Hs.
  destruct (search pattern scenario_in) as [m|] eqn:E; [|done].
  injection Hs as Hs.
  pose proof (fix_nested_html_match d tr file_path _ m Hd E) as Hfix.
  rewrite Hs in Hfix. split; [done|].
  intros n. cbn [for_each]. unfold mbind, io_bind. by rewrite Hfix.
Qed.

Lemma scenario_file_fixed_witness :
  let d : gmap string node := {["page.html" := File scenario_in true]} in
  d !! "page.html" = Some (File scenario_in true)
  ∧ (fix_nested_html "page.html" (World (Some d) [])
     = (Returned true,
        World (Some (<["page.html" := File scenario_out true]> d))
              ([] ++ [EvRead "page.html"; EvPrint (FoundNested "page.html");
                      EvWrite "page.html" scenario_out;
                      EvPrint (FixedNested "page.html")]))
     ∧ ∀ fixed_count,
         (for_each ["page.html"] fixed_count (World (Some d) [])).1
         = Returned (fixed_count + 1)).
Proof.
  intros d.
  assert (d !! "page.html" = Some (File scenario_in true)) as Hd
    by (vm_compute; reflexivity).
  split; [exact Hd|]. exact (scenario_file_fixed d [] "page.html" Hd).
Defined.

(** C2: when the text has no wrapper open tag with a DOCTYPE somewhere after
    it, the pattern does not match, [fix_nested_html] returns [False], and
    the file is only read: the store is as before and nothing is written. *)
Theorem no_wrapper_no_change (d : gmap string node) tr file_path content wr :
  d !! file_path = Some (File content wr) →
  occurs_then DIV_OPEN DOCTYPE content = false →
  search pattern content = None
  ∧ fix_nested_html file_path (World (Some d) tr)
    = (Returned false, World (Some d) (tr ++ [EvRead file_path])).
Proof.
  intros Hd Hno.
  assert (search pattern content = None) as Hs.
  { destruct (search pattern content) as [m|] eqn:E; [exfalso|done].
    apply search_pattern_sound in E as (before & o & after & -> & _).
    assert (occurs_then DIV_OPEN DOCTYPE (before ++ wrapper o ++ after) = true)
      as H; [|congruence].
    apply occurs_then_iff.
    exists before, (lead o),
      (prolog o ++ BODY_OPEN ++ attrs o ++ GT ++ inner o
       ++ close_boilerplate o ++ (tail o ++ DIV_CLOSE) ++ after).
    unfold wrapper, open_boilerplate. by rewrite <- !app_assoc. }
  split; [done|]. by eapply fix_nested_html_no_match.
Qed.

Lemma no_wrapper_no_change_witness :
  let content := text_of "<div class='other'><!DOCTYPE html><body>x</body></html></div>" in
  let d : gmap string node := {["page.html" := File content false]} in
  d !! "page.html" = Some (File content false)
  ∧ occurs_then DIV_OPEN DOCTYPE content = false
  ∧ search pattern content = None
  ∧ fix_nested_html "page.html" (World (Some d) [])
    = (Returned false, World (Some d) ([] ++ [EvRead "page.html"])).
Proof.
  intros content d.
  assert (d !! "page.html" = Some (File content false)) as Hd
    by (vm_compute; reflexivity).
  assert (occurs_then DIV_OPEN DOCTYPE content = false) as Hno
    by (vm_compute; reflexivity).
  split; [exact Hd|]. split; [exact Hno|].
  exact (no_wrapper_no_change d [] "page.html" content false Hd Hno).
Defined.

(** C5: when the pattern matches, the five groups tile the matched span,
    and the text written back is the text before the match, then groups 1,
    3 and 5, then the text after the match: only the spans of groups 2 and 4
    are gone. *)
Theorem splice_keeps_outside (d : gmap string node) tr file_path content m :
  d !! file_path = Some (File content true) →
  search pattern content = Some m →
  ∃ g1 g2 g3 g4 g5,
    group content m 1 = Some g1 ∧ group content m 2 = Some g2
    ∧ group content m 3 = Some g3 ∧ group content m 4 = Some g4
    ∧ group content m 5 = Some g5
    ∧ content = take (m_start m) content
                ++ (g1 ++ g2 ++ g3 ++ g4 ++ g5) ++ drop (m_end m) content
    ∧ fix_nested_html file_path (World (Some d) tr)
      = (Returned true,
         World (Some (<[file_path :=
                  File (take (m_start m) content
                        ++ (g1 ++ g3 ++ g5) ++ drop (m_end m) content) true]> d))
               (tr ++ [EvRead file_path; EvPrint (FoundNested file_path);
                       EvWrite file_path
                         (take (m_start m) content
                          ++ (g1 ++ g3 ++ g5) ++ drop (m_end m) content);
                       EvPrint (FixedNested file_path)])).
Proof.
  intros Hd Hs.
  pose proof (fix_nested_html_match d tr file_path content m Hd Hs) as Hfix.
  apply search_pattern_sound in Hs
    as (before & o & after & E & _ & Hst & Hend & H1 & H2 & H3 & H4 & H5).
  exists (DIV_OPEN ++ lead o), (open_boilerplate o), (inner o),
    (close_boilerplate o), (tail o ++ DIV_CLOSE).
  do 5 (split; [done|]).
  assert (take (m_start m) content = before) as Ht.
  { by rewrite E, Hst, take_app_length. }
  assert (drop (m_end m) content = after) as Hdr.
  { by rewrite E, Hend, (app_assoc before), <- length_app, drop_app_length. }
  split.
  - rewrite Ht, Hdr. rewrite E at 1. unfold wrapper. by rewrite <- !app_assoc.
  - rewrite Hfix. unfold new_content. rewrite H1, H3, H5. cbn [fmt].
    by rewrite <- !app_assoc.
Qed.

Lemma splice_keeps_outside_witness :
  let d : gmap string node := {["page.html" := File scenario_in true]} in
  ∃ m, d !! "page.html" = Some (File scenario_in true)
    ∧ search pattern scenario_in = Some m
    ∧ ∃ g1 g2 g3 g4 g5,
        group scenario_in m 1 = Some g1 ∧ group scenario_in m 2 = Some g2
        ∧ group scenario_in m 3 = Some g3 ∧ group scenario_in m 4 = Some g4
        ∧ group scenario_in m 5 = Some g5
        ∧ scenario_in = take (m_start m) scenario_in
                        ++ (g1 ++ g2 ++ g3 ++ g4 ++ g5)
                        ++ drop (m_end m) scenario_in
        ∧ fix_nested_html "page.html" (World (Some d) [])
          = (Returned true,
             World (Some (<["page.html" :=
                      File (take (m_start m) scenario_in
                            ++ (g1 ++ g3 ++ g5)
                            ++ drop (m_end m) scenario_in) true]> d))
                   ([] ++ [EvRead "page.html";
                           EvPrint (FoundNested "page.html");
                           EvWrite "page.html"
                             (take (m_start m) scenario_in
                              ++ (g1 ++ g3 ++ g5)
                              ++ drop (m_end m) scenario_in);
                           EvPrint (FixedNested "page.html")])).
Proof.
  intros d.
  assert (d !! "page.html" = Some (File scenario_in true)) as Hd
    by (vm_compute; reflexivity).
  destruct (search pattern scenario_in) as [m|] eqn:E;
    [|exfalso; revert E; vm_compute; discriminate].
  exists m. split; [exact Hd|]. split; [reflexivity|].
  exact (splice_keeps_outside d [] "page.html" scenario_in m Hd E).
Defined.

(** C10: the rewrite only deletes. Whatever the text, the file afterwards
    holds a subsequence of it that is no longer than it; when the pattern
    matches, the lengths differ by the lengths of groups 2 and 4, and when
    it does not match the text is the same. *)
Theorem fix_only_deletes (d : gmap string node) tr file_path content :
  d !! file_path = Some (File content true) →
  ∃ changed out d' tr',
    fix_nested_html file_path (World (Some d) tr)
    = (Returned changed, World (Some d') tr')
    ∧ d' !! file_path = Some (File out true)
    ∧ sublist out content
    ∧ length out ≤ length content
    ∧ match search pattern content with
      | Some m =>
          changed = true
          ∧ ∃ a g2 b g4 c,
              group content m 2 = Some g2 ∧ group content m 4 = Some g4
              ∧ content = a ++ g2 ++ b ++ g4 ++ c ∧ out = a ++ b ++ c
              ∧ length out + length g2 + length g4 = length content
      | None => changed = false ∧ out = content
      end.
Proof.
  intros Hd. destruct (search pattern content) as [m|] eqn:Hs.
  - pose proof (fix_nested_html_match d tr file_path content m Hd Hs) as Hfix.
    apply search_pattern_sound in Hs
      as (before & o & after & E & _ & Hst & Hend & H1 & H2 & H3 & H4 & H5).
    pose proof (new_content_repaired content m before o after
                  E Hst Hend H1 H3 H5) as Hnew.
    eexists true, _, _, _. split; [exact Hfix|].
    split; [by rewrite lookup_insert_eq|]. rewrite Hnew. subst content.
    assert (sublist (repaired o) (wrapper o)) as Hsub.
    { unfold repaired, wrapper.
      apply sublist_app; [done|]. apply sublist_inserts_l.
      apply sublist_app; [done|]. by apply sublist_inserts_l. }
    split; [apply sublist_app; [done|]; by apply sublist_app|].
    assert (length (repaired o) + length (open_boilerplate o)
            + length (close_boilerplate o) = length (wrapper o)) as Hlen.
    { unfold repaired, wrapper. rewrite !length_app. lia. }
    split; [rewrite !length_app; lia|]. split; [done|].
    exists (before ++ DIV_OPEN ++ lead o), (open_boilerplate o), (inner o),
      (close_boilerplate o), (tail o ++ DIV_CLOSE ++ after).
    split; [done|]. split; [done|].
    split; [unfold wrapper; by rewrite <- !app_assoc|].
    split; [unfold repaired; by rewrite <- !app_assoc|].
    rewrite !length_app. lia.
  - eexists false, content, _, _.
    split; [by eapply fix_nested_html_no_match|].
    split; [done|]. split; [done|]. split; [lia|done].
Qed.

Lemma fix_only_deletes_witness :
  let d : gmap string node := {["page.html" := File scenario_in true]} in
  d !! "page.html" = Some (File scenario_in true)
  ∧ ∃ changed out d' tr',
      fix_nested_html "page.html" (World (Some d) [])
      = (Returned changed, World (Some d') tr')
      ∧ d' !! "page.html" = Some (File out true)
      ∧ sublist out scenario_in
      ∧ length out ≤ length scenario_in
      ∧ match search pattern scenario_in with
        | Some m =>
            changed = true
            ∧ ∃ a g2 b g4 c,
                group scenario_in m 2 = Some g2
                ∧ group scenario_in m 4 = Some g4
                ∧ scenario_in = a ++ g2 ++ b ++ g4 ++ c ∧ out = a ++ b ++ c
                ∧ length out + length g2 + length g4 = length scenario_in
        | None => changed = false ∧ out = scenario_in
        end.
Proof.
  intros d.
  assert (d !! "page.html" = Some (File scenario_in true)) as Hd
    by (vm_compute; reflexivity).
  split; [exact Hd|]. exact (fix_only_deletes d [] "page.html" scenario_in Hd).
Defined.

(** C3: for a text with one well-formed nested document in its first
    wrapper, [fix_nested_html] returns [True] and writes the text with the
    opening and the closing boilerplate of the nested document taken out:
    the text before and after the wrapper and the inner body's content stay
    as they were, and the wrapper as written holds none of [<!DOCTYPE html>],
    [<body], [</body>] and [</html>]; neither does the whole text when
    the text around the wrapper held none. *)
Theorem single_occurrence_fixed (d : gmap string node) tr file_path
    pre o post :
  first_nested pre o = true →
  d !! file_path = Some (File (pre ++ wrapper o ++ post) true) →
  fix_nested_html file_path (World (Some d) tr)
  = (Returned true,
     World (Some (<[file_path :=
              File (pre ++ ((DIV_OPEN ++ lead o) ++ inner o
                            ++ (tail o ++ DIV_CLOSE)) ++ post) true]> d))
           (tr ++ [EvRead file_path; EvPrint (FoundNested file_path);
                   EvWrite file_path
                     (pre ++ ((DIV_OPEN ++ lead o) ++ inner o
                              ++ (tail o ++ DIV_CLOSE)) ++ post);
                   EvPrint (FixedNested file_path)]))
  ∧ boilerplate_free ((DIV_OPEN ++ lead o) ++ inner o
                      ++ (tail o ++ DIV_CLOSE)) = true
  ∧ (clean pre = true → boilerplate_free post = true →
     boilerplate_free (pre ++ ((DIV_OPEN ++ lead o) ++ inner o
                               ++ (tail o ++ DIV_CLOSE)) ++ post) = true).
Proof.
  intros (Hpre & Ho & Hl & Hi & Ht)%first_nested_parts Hd.
  change ((DIV_OPEN ++ lead o) ++ inner o ++ (tail o ++ DIV_CLOSE))
    with (repaired o).
  pose proof (clean_repaired o Hl Hi Ht) as Hc.
  split; [by apply fix_nested_html_first_wrapper|].
  split; [by apply andb_prop in Hc as [_ ?]|].
  intros Hcp Hfp.
  destruct boilerplate_literals as (? & ? & ? & ?).
  apply andb_prop in Hcp as [Hp1 Hp2], Hc as [Hc1 Hc2].
  apply boilerplate_free_iff in Hp2 as (? & ? & ? & ?).
  apply boilerplate_free_iff in Hc2 as (? & ? & ? & ?).
  apply boilerplate_free_iff in Hfp as (? & ? & ? & ?).
  apply boilerplate_free_iff.
  repeat split;
    (apply occurs_app_closed; [done|done|done|];
     apply occurs_app_closed; done).
Qed.

Lemma single_occurrence_fixed_witness :
  let pre := text_of "<main>" in
  let post := text_of "</main>" in
  let o := example_nested in
  let d : gmap string node :=
    {["page.html" := File (pre ++ wrapper o ++ post) true]} in
  first_nested pre o = true
  ∧ d !! "page.html" = Some (File (pre ++ wrapper o ++ post) true)
  ∧ fix_nested_html "page.html" (World (Some d) [])
    = (Returned true,
       World (Some (<["page.html" :=
                File (pre ++ ((DIV_OPEN ++ lead o) ++ inner o
                              ++ (tail o ++ DIV_CLOSE)) ++ post) true]> d))
             ([] ++ [EvRead "page.html"; EvPrint (FoundNested "page.html");
                     EvWrite "page.html"
                       (pre ++ ((DIV_OPEN ++ lead o) ++ inner o
                                ++ (tail o ++ DIV_CLOSE)) ++ post);
                     EvPrint (FixedNested "page.html")]))
    ∧ boilerplate_free ((DIV_OPEN ++ lead o) ++ inner o
                        ++ (tail o ++ DIV_CLOSE)) = true
    ∧ (clean pre = true → boilerplate_free post = true →
       boilerplate_free (pre ++ ((DIV_OPEN ++ lead o) ++ inner o
                                 ++ (tail o ++ DIV_CLOSE)) ++ post) = true).
Proof.
  intros pre post o d.
  assert (first_nested pre o = true) as Ho by (vm_compute; reflexivity).
  assert (d !! "page.html" = Some (File (pre ++ wrapper o ++ post) true))
    as Hd by (vm_compute; reflexivity).
  split; [exact Ho|]. split; [exact Hd|].
  exact (single_occurrence_fixed d [] "page.html" pre o post Ho Hd).
Defined.

(** C4, with the condition it needs: for a text whose first wrapper holds
    a well-formed nested document, and in which no [<!DOCTYPE html>] is left
    in the inner content, in the tail or in the text after the wrapper, a
    second run of [fix_nested_html] on what the first run wrote finds no
    match, returns [False] and only reads the file. *)
Theorem second_fix_changes_nothing (d : gmap string node) tr file_path
    pre o post :
  single_nested pre o post = true →
  d !! file_path = Some (File (pre ++ wrapper o ++ post) true) →
  ∃ d1 tr1,
    fix_nested_html file_path (World (Some d) tr)
    = (Returned true, World (Some d1) tr1)
    ∧ d1 !! file_path = Some (File (pre ++ repaired o ++ post) true)
    ∧ search pattern (pre ++ repaired o ++ post) = None
    ∧ fix_nested_html file_path (World (Some d1) tr1)
      = (Returned false, World (Some d1) (tr1 ++ [EvRead file_path])).
Proof.
  unfold single_nested. rewrite !andb_true_iff, !negb_true_iff.
  intros [[[[[[[Hpre Ho] Hl] Hi] Ht] Hdi] Hdt] Hdp] Hd.
  eexists _, _.
  split; [by apply fix_nested_html_first_wrapper|].
  split; [apply lookup_insert_eq|].
  assert (search pattern (pre ++ repaired o ++ post) = None) as Hs.
  { destruct (search pattern (pre ++ repaired o ++ post)) as [m|] eqn:E;
      [exfalso|done].
    apply search_Some_occurs_then, (occurs_then_after _ _ _ _ Hpre) in E.
    assert (occurs DOCTYPE (lead o) = false) as Hdl.
    { unfold well_formed in Ho. rewrite !andb_true_iff, !negb_true_iff in Ho.
      tauto. }
    destruct boilerplate_literals as (Hlit & _).
    assert (tag_closed DIV_OPEN = true ∧ occurs DOCTYPE DIV_OPEN = false
            ∧ tag_closed DIV_CLOSE = true ∧ occurs DOCTYPE DIV_CLOSE = false)
      as (? & ? & ? & ?) by (vm_compute; done).
    unfold repaired in E. rewrite <- !app_assoc in E.
    assert (occurs DOCTYPE (DIV_OPEN ++ lead o ++ inner o ++ tail o
                            ++ DIV_CLOSE ++ post) = false) as E';
      [|congruence].
    repeat (apply occurs_app_closed; [done|done|done|]). done. }
  split; [done|].
  eapply fix_nested_html_no_match; [apply lookup_insert_eq|done].
Qed.

Lemma second_fix_changes_nothing_witness :
  let pre := text_of "<!DOCTYPE html><html><body><main>" in
  let post := text_of "</main></body></html>" in
  let o := example_nested in
  let d : gmap string node :=
    {["page.html" := File (pre ++ wrapper o ++ post) true]} in
  single_nested pre o post = true
  ∧ d !! "page.html" = Some (File (pre ++ wrapper o ++ post) true)
  ∧ ∃ d1 tr1,
      fix_nested_html "page.html" (World (Some d) [])
      = (Returned true, World (Some d1) tr1)
      ∧ d1 !! "page.html" = Some (File (pre ++ repaired o ++ post) true)
      ∧ search pattern (pre ++ repaired o ++ post) = None
      ∧ fix_nested_html "page.html" (World (Some d1) tr1)
        = (Returned false, World (Some d1) (tr1 ++ [EvRead "page.html"])).
Proof.
  intros pre post o d.
  assert (single_nested pre o post = true) as Ho by (vm_compute; reflexivity).
  assert (d !! "page.html" = Some (File (pre ++ wrapper o ++ post) true))
    as Hd by (vm_compute; reflexivity).
  split; [exact Ho|]. split; [exact Hd|].
  exact (second_fix_changes_nothing d [] "page.html" pre o post Ho Hd).
Defined.

(** C4 as the specification words it does not hold: one occurrence in the
    input is not enough. [wrapper_then_side] has one wrapper open tag, the
    nested document in that wrapper is well formed and cut the lazy way, and
    the pattern matches the text once, with no match in what follows the
    match. A document nested in another div follows, which the pattern does
    not match. The first run returns [True]; in the text it writes, the
    pattern matches again, from the wrapper open tag over the end of the
    wrapper to the document in the other div, so the second run returns
    [True] too and writes another text. *)
Example second_fix_changes_again :
  count_occurs DIV_OPEN wrapper_then_side = 1
  ∧ first_nested [] (Nested [] (text_of "<html>") [] (text_of "A") [] [])
    = true
  ∧ (m_start <$> search pattern wrapper_then_side = Some 0
     ∧ ((λ m, search pattern (drop (m_end m) wrapper_then_side))
          <$> search pattern wrapper_then_side) = Some None
     ∧ ((λ m, search pattern (drop (S (m_start m)) wrapper_then_side))
          <$> search pattern wrapper_then_side) = Some None)
  ∧ (fix_nested_html "page.html"
       (World (Some {["page.html" := File wrapper_then_side true]}) [])).1
    = Returned true
  ∧ html_dir (fix_nested_html "page.html"
       (World (Some {["page.html" := File wrapper_then_side true]}) [])).2
      ≫= (.!! "page.html")
    = Some (File (DIV_OPEN ++ text_of "A" ++ DIV_CLOSE
                  ++ text_of "<div class='side'><!DOCTYPE html><html><body>B</body></html></div>")
                 true)
  ∧ (fix_nested_html "page.html"
       (fix_nested_html "page.html"
          (World (Some {["page.html" := File wrapper_then_side true]}) [])).2).1
    = Returned true
  ∧ html_dir (fix_nested_html "page.html"
       (fix_nested_html "page.html"
          (World (Some {["page.html" := File wrapper_then_side true]}) [])).2).2
      ≫= (.!! "page.html")
    = Some (File (DIV_OPEN ++ text_of "A</div><div class='side'>B"
                  ++ DIV_CLOSE) true).
Proof. vm_compute. repeat split; reflexivity. Qed.

(** Nor is it enough that the text holds one wrapper only: with a document
    nested in the nested document, each run peels one layer. *)
Example nested_twice_takes_two_runs :
  let once := DIV_OPEN ++ DOCTYPE ++ BODY_OPEN ++ GT ++ text_of "X"
              ++ BODY_CLOSE ++ HTML_CLOSE ++ DIV_CLOSE in
  let twice := DIV_OPEN ++ text_of "X" ++ DIV_CLOSE in
  new_content nested_twice <$> search pattern nested_twice = Some once
  ∧ new_content once <$> search pattern once = Some twice
  ∧ search pattern twice = None.
Proof. vm_compute. done. Qed.

(** C6: in a text with two or more wrappers around nested documents, one
    run of [fix_nested_html] changes the text up to the end of the first
    wrapper only, by taking two spans out of it; the text after it, with
    every later wrapper, is written back as it was. When the first wrapper
    is the first in the text and cut the lazy way, what is written for it is
    the wrapper without its boilerplate. *)
Theorem only_first_occurrence_fixed (d : gmap string node) tr file_path
    pre o1 mid o2 post :
  forallb is_space (gap o1) = true →
  d !! file_path
  = Some (File (pre ++ wrapper o1 ++ mid ++ wrapper o2 ++ post) true) →
  (∃ a g2 b g4 c,
     pre ++ wrapper o1 = a ++ g2 ++ b ++ g4 ++ c
     ∧ g2 ≠ [] ∧ g4 ≠ []
     ∧ fix_nested_html file_path (World (Some d) tr)
       = (Returned true,
          World (Some (<[file_path :=
                   File ((a ++ b ++ c) ++ mid ++ wrapper o2 ++ post) true]> d))
                (tr ++ [EvRead file_path; EvPrint (FoundNested file_path);
                        EvWrite file_path
                          ((a ++ b ++ c) ++ mid ++ wrapper o2 ++ post);
                        EvPrint (FixedNested file_path)])))
  ∧ (occurs DIV_OPEN pre = false → well_formed o1 = true →
     fix_nested_html file_path (World (Some d) tr)
     = (Returned true,
        World (Some (<[file_path :=
                 File (pre ++ repaired o1 ++ mid ++ wrapper o2 ++ post) true]> d))
              (tr ++ [EvRead file_path; EvPrint (FoundNested file_path);
                      EvWrite file_path
                        (pre ++ repaired o1 ++ mid ++ wrapper o2 ++ post);
                      EvPrint (FixedNested file_path)]))).
Proof.
  intros Hws Hd. split.
  - by apply fix_nested_html_up_to_wrapper.
  - intros Hpre Ho. by apply fix_nested_html_first_wrapper.
Qed.

Lemma only_first_occurrence_fixed_witness :
  let pre := text_of "<main>" in
  let mid := text_of "<hr>" in
  let post := text_of "</main>" in
  let o := example_nested in
  let d : gmap string node :=
    {["page.html" := File (pre ++ wrapper o ++ mid ++ wrapper o ++ post) true]} in
  forallb is_space (gap o) = true
  ∧ d !! "page.html"
    = Some (File (pre ++ wrapper o ++ mid ++ wrapper o ++ post) true)
  ∧ (∃ a g2 b g4 c,
       pre ++ wrapper o = a ++ g2 ++ b ++ g4 ++ c
       ∧ g2 ≠ [] ∧ g4 ≠ []
       ∧ fix_nested_html "page.html" (World (Some d) [])
         = (Returned true,
            World (Some (<["page.html" :=
                     File ((a ++ b ++ c) ++ mid ++ wrapper o ++ post) true]> d))
                  ([] ++ [EvRead "page.html"; EvPrint (FoundNested "page.html");
                          EvWrite "page.html"
                            ((a ++ b ++ c) ++ mid ++ wrapper o ++ post);
                          EvPrint (FixedNested "page.html")])))
  ∧ (occurs DIV_OPEN pre = false → well_formed o = true →
     fix_nested_html "page.html" (World (Some d) [])
     = (Returned true,
        World (Some (<["page.html" :=
                 File (pre ++ repaired o ++ mid ++ wrapper o ++ post) true]> d))
              ([] ++ [EvRead "page.html"; EvPrint (FoundNested "page.html");
                      EvWrite "page.html"
                        (pre ++ repaired o ++ mid ++ wrapper o ++ post);
                      EvPrint (FixedNested "page.html")]))).
Proof.
  intros pre mid post o d.
  assert (forallb is_space (gap o) = true) as Hws by (vm_compute; reflexivity).
  assert (d !! "page.html"
          = Some (File (pre ++ wrapper o ++ mid ++ wrapper o ++ post) true))
    as Hd by (vm_compute; reflexivity).
  split; [exact Hws|]. split; [exact Hd|].
  exact (only_first_occurrence_fixed d [] "page.html" pre o mid o post Hws Hd).
Defined.

(** ** The batch *)

(** Names compare as [str] does. *)
Lemma string_compare_refl (a : string) : String.compare a a = Eq.
Proof.
  induction a as [|x a IH]; simpl; [done|].
  unfold Ascii.compare. by rewrite N.compare_refl.
Qed.

Lemma string_compare_lt_trans (a b c : string) :
  String.compare a b = Lt → String.compare b c = Lt → String.compare a c = Lt.
Proof.
  revert b c. induction a as [|x a IH]; intros [|y b] [|z c]; simpl; try done.
  unfold Ascii.compare.
  destruct (N.compare_spec (N_of_ascii x) (N_of_ascii y)) as [Exy|Lxy|Gxy];
    destruct (N.compare_spec (N_of_ascii y) (N_of_ascii z)) as [Eyz|Lyz|Gyz];
    try done; intros Hab Hbc.
  - rewrite Exy, Eyz, N.compare_refl. by eapply IH.
  - rewrite Exy. by apply N.compare_lt_iff in Lyz as ->.
  - rewrite <- Eyz. by apply N.compare_lt_iff in Lxy as ->.
  - assert (N_of_ascii x < N_of_ascii z)%N as H by lia.
    by apply N.compare_lt_iff in H as ->.
Qed.

#[global] Instance path_le_total : Total path_le.
Proof. intros a b. apply String.leb_total. Qed.

#[global] Instance path_le_trans : Transitive path_le.
Proof.
  intros a b c. unfold path_le, String.leb.
  destruct (String.compare a b) eqn:Hab; [|
    |done].
  - apply String.compare_eq_iff in Hab as ->. done.
  - destruct (String.compare b c) eqn:Hbc; [| |done].
    + apply String.compare_eq_iff in Hbc as <-. by rewrite Hab.
    + by rewrite (string_compare_lt_trans a b c).
Qed.

(** The files of the batch: the names of the directory that end in [.html],
    each once, in order. *)
Lemma html_files_spec (d : gmap string node) :
  (∀ name, name ∈ html_files d
           ↔ is_Some (d !! name) ∧ ends_with ".html" name = true)
  ∧ NoDup (html_files d) ∧ StronglySorted path_le (html_files d).
Proof.
  unfold html_files, sorted. split; [|split].
  - intros name. rewrite merge_sort_Permutation. unfold html_names.
    rewrite list_elem_of_filter, list_elem_of_fmap. split.
    + intros [He [[k v] [-> Hin%elem_of_map_to_list]]]. by eauto.
    + intros [[v Hv] He]. split; [done|]. exists (name, v).
      split; [done|]. by apply elem_of_map_to_list.
  - rewrite merge_sort_Permutation. apply NoDup_filter, NoDup_fst_map_to_list.
  - apply StronglySorted_merge_sort; apply _.
Qed.

(** One step of the loop on a file that can be processed. *)
Lemma fix_nested_html_processable (d : gmap string node) tr name :
  processable d name = true →
  ∃ d' evs,
    fix_nested_html name (World (Some d) tr)
    = (Returned (needs_fix d name), World (Some d') (tr ++ evs))
    ∧ reads evs = [name]
    ∧ writes evs = (if needs_fix d name then [name] else [])
    ∧ (∀ other, other ≠ name → d' !! other = d !! other)
    ∧ (∀ ev q, ev ∈ evs → event_path ev = Some q → q = name).
Proof.
  unfold processable, needs_fix.
  destruct (d !! name) as [[content wr|e|content e remains]|] eqn:Hd;
    try done.
  - destruct (search pattern content) as [m|] eqn:Hs.
    + rewrite bool_decide_eq_true_2 by eauto. rewrite orb_false_r. intros ->.
      eexists _, _. split; [by apply fix_nested_html_match|].
      split; [done|]. split; [done|]. split.
      * intros other Hne. by rewrite lookup_insert_ne.
      * intros ev q Hin. rewrite !elem_of_cons, elem_of_nil in Hin.
        destruct Hin as [->|[->|[->|[->|[]]]]]; cbn; congruence.
    + rewrite bool_decide_eq_false_2 by (by intros [? ?]). intros _.
      eexists _, _. split; [by eapply fix_nested_html_no_match|].
      split; [done|]. split; [done|]. split; [done|].
      intros ev q ->%list_elem_of_singleton. cbn. congruence.
  - destruct (search pattern content) as [m|] eqn:Hs.
    + by rewrite bool_decide_eq_true_2 by eauto.
    + rewrite bool_decide_eq_false_2 by (by intros [? ?]). intros _.
      eexists _, _. split; [by eapply fix_nested_html_fragile_no_match|].
      split; [done|]. split; [done|]. split; [done|].
      intros ev q ->%list_elem_of_singleton. cbn. congruence.
Qed.

Lemma for_each_cons name rest n w :
  for_each (name :: rest) n w
  = match fix_nested_html name w with
    | (Returned fixed, w') => for_each rest (if fixed then n + 1 else n) w'
    | (Raised e, w') => (Raised e, w')
    end.
Proof. done. Qed.

(** The loop over files that can all be processed. *)
Lemma for_each_ok files :
  ∀ (d : gmap string node) tr n,
    NoDup files → forallb (processable d) files = true →
    ∃ d' evs,
      for_each files n (World (Some d) tr)
      = (Returned (n + length (List.filter (needs_fix d) files)),
         World (Some d') (tr ++ evs))
      ∧ reads evs = files
      ∧ writes evs = List.filter (needs_fix d) files
      ∧ (∀ other, other ∉ files → d' !! other = d !! other)
      ∧ (∀ ev q, ev ∈ evs → event_path ev = Some q → q ∈ files).
Proof.
  induction files as [|name rest IH]; intros d tr n Hnd Hok.
  - exists d, []. cbn. rewrite Nat.add_0_r, app_nil_r.
    repeat split; try done. intros ev q Hin. by apply elem_of_nil in Hin.
  - apply NoDup_cons in Hnd as [Hnotin Hnd].
    cbn [forallb] in Hok. apply andb_prop in Hok as [Hname Hrest].
    destruct (fix_nested_html_processable d tr name Hname)
      as (d1 & evs1 & Hfix & Hr1 & Hw1 & Hd1 & He1).
    assert (∀ x, x ∈ rest → d1 !! x = d !! x) as Hsame.
    { intros x Hx. apply Hd1. intros ->. done. }
    assert (forallb (processable d1) rest = true) as Hrest1.
    { apply forallb_forall. intros x Hx%list_elem_of_In.
      unfold processable. rewrite (Hsame x Hx).
      rewrite forallb_forall in Hrest.
      by apply Hrest, list_elem_of_In. }
    assert (List.filter (needs_fix d1) rest = List.filter (needs_fix d) rest)
      as Hfilter.
    { apply filter_ext_in. intros x Hx%list_elem_of_In.
      unfold needs_fix. by rewrite (Hsame x Hx). }
    destruct (IH d1 (tr ++ evs1) (if needs_fix d name then n + 1 else n)
                Hnd Hrest1) as (d' & evs & Hloop & Hr & Hw & Hd' & He).
    exists d', (evs1 ++ evs).
    rewrite for_each_cons, Hfix, Hloop, Hfilter, <- app_assoc.
    unfold reads, writes in *. rewrite !omap_app, Hr1, Hw1, Hr, Hw, Hfilter.
    cbn [List.filter]. split; [|split; [done|split; [|split]]].
    + destruct (needs_fix d name); cbn [length]; do 2 f_equal; lia.
    + by destruct (needs_fix d name).
    + intros other [Hne Hnr]%not_elem_of_cons.
      rewrite (Hd' other Hnr). by apply Hd1.
    + intros ev q [Hin|Hin]%elem_of_app Hq.
      * rewrite (He1 ev q Hin Hq). apply elem_of_cons. by left.
      * apply elem_of_cons. right. by eapply He.
Qed.

Lemma main_in_dir (d : gmap string node) tr :
  main (World (Some d) tr)
  = match for_each (html_files d) 0 (World (Some d) tr) with
    | (Returned fixed_count, w') =>
        (Returned (),
         emit (EvPrint (Processed (length (html_files d)) fixed_count)) w')
    | (Raised e, w') => (Raised e, w')
    end.
Proof. reflexivity. Qed.

Lemma for_each_app l1 l2 :
  ∀ n w,
    for_each (l1 ++ l2) n w
    = match for_each l1 n w with
      | (Returned k, w') => for_each l2 k w'
      | (Raised e, w') => (Raised e, w')
      end.
Proof.
  induction l1 as [|name l1 IH]; intros n w; [done|].
  rewrite <- app_comm_cons, !for_each_cons.
  destruct (fix_nested_html name w) as [[fixed|e] w']; [apply IH|done].
Qed.

(** ** The claims about the batch *)

(** C7: when the target directory does not exist, [main] prints that it
    found no directory and returns: nothing is read, nothing is written and
    nothing is raised. *)
Theorem missing_directory_reported tr :
  ∃ w', main (World None tr) = (Returned (), w')
    ∧ html_dir w' = None
    ∧ trace w' = tr ++ [EvPrint NoHtmlDir]
    ∧ reads (trace w') = reads tr ∧ writes (trace w') = writes tr.
Proof.
  eexists. split; [reflexivity|]. cbn. split; [done|]. split; [done|].
  unfold reads, writes. rewrite !omap_app. cbn. by rewrite !app_nil_r.
Qed.

(** C8: when the target directory exists and its HTML files can be
    processed, [main] goes through the names directly inside it that end in
    [.html], each once, in sorted order, and then prints how many files
    there were and how many of them it rewrote; with three such files of
    which one matches it prints 3 and 1. *)
Theorem batch_over_sorted_html (d : gmap string node) tr :
  forallb (processable d) (html_files d) = true →
  (∀ name, name ∈ html_files d
           ↔ is_Some (d !! name) ∧ ends_with ".html" name = true)
  ∧ NoDup (html_files d) ∧ StronglySorted path_le (html_files d)
  ∧ (∃ d' evs,
       main (World (Some d) tr)
       = (Returned (),
          World (Some d')
            (tr ++ evs
             ++ [EvPrint (Processed (length (html_files d))
                   (length (List.filter (needs_fix d) (html_files d))))]))
       ∧ reads evs = html_files d
       ∧ writes evs = List.filter (needs_fix d) (html_files d))
  ∧ (length (html_files d) = 3 →
     length (List.filter (needs_fix d) (html_files d)) = 1 →
     ∃ w', main (World (Some d) tr) = (Returned (), w')
           ∧ last (trace w') = Some (EvPrint (Processed 3 1))).
Proof.
  intros Hok. destruct (html_files_spec d) as (Hin & Hnd & Hsorted).
  do 3 (split; [done|]).
  destruct (for_each_ok (html_files d) d tr 0 Hnd Hok)
    as (d' & evs & Hloop & Hr & Hw & _).
  assert (main (World (Some d) tr)
          = (Returned (),
             World (Some d')
               (tr ++ evs
                ++ [EvPrint (Processed (length (html_files d))
                      (length (List.filter (needs_fix d) (html_files d))))])))
    as Hmain.
  { rewrite main_in_dir, Hloop. unfold emit. cbn. by rewrite <- app_assoc. }
  split; [by exists d', evs|].
  intros H3 H1. eexists. split; [exact Hmain|]. cbn.
  by rewrite H3, H1, !app_assoc, last_snoc.
Qed.

Lemma batch_over_sorted_html_witness :
  forallb (processable three_files) (html_files three_files) = true
  ∧ html_files three_files = ["a.html"; "b.html"; "c.html"]
  ∧ (∀ name, name ∈ html_files three_files
             ↔ is_Some (three_files !! name) ∧ ends_with ".html" name = true)
  ∧ NoDup (html_files three_files)
  ∧ StronglySorted path_le (html_files three_files)
  ∧ (∃ d' evs,
       main (World (Some three_files) [])
       = (Returned (),
          World (Some d')
            ([] ++ evs
             ++ [EvPrint (Processed (length (html_files three_files))
                   (length (List.filter (needs_fix three_files)
                              (html_files three_files))))]))
       ∧ reads evs = html_files three_files
       ∧ writes evs
         = List.filter (needs_fix three_files) (html_files three_files))
  ∧ (length (html_files three_files) = 3 →
     length (List.filter (needs_fix three_files) (html_files three_files)) = 1 →
     ∃ w', main (World (Some three_files) []) = (Returned (), w')
           ∧ last (trace w') = Some (EvPrint (Processed 3 1))).
Proof.
  assert (forallb (processable three_files) (html_files three_files) = true)
    as Hok by (vm_compute; reflexivity).
  split; [exact Hok|]. split; [vm_compute; reflexivity|].
  exact (batch_over_sorted_html three_files [] Hok).
Defined.

(** C9: when a file of the batch cannot be read, [main] raises the error of
    that read. The world it leaves is the one the loop had reached over the
    files before: their rewrites stay, the files after are not touched, and
    no summary is printed. *)
Theorem unreadable_file_aborts_batch (d : gmap string node) tr
    before bad later e :
  html_files d = before ++ bad :: later →
  forallb (processable d) before = true →
  d !! bad = Some (Unreadable e) →
  ∃ d' evs,
    main (World (Some d) tr) = (Raised e, World (Some d') (tr ++ evs))
    ∧ for_each before 0 (World (Some d) tr)
      = (Returned (length (List.filter (needs_fix d) before)),
         World (Some d') (tr ++ evs))
    ∧ reads evs = before
    ∧ writes evs = List.filter (needs_fix d) before
    ∧ (∀ ev q, ev ∈ evs → event_path ev = Some q → q ∈ before ∧ q ∉ bad :: later)
    ∧ (∀ name, name ∈ bad :: later → d' !! name = d !! name).
Proof.
  intros Hfiles Hok Hbad.
  destruct (html_files_spec d) as (_ & Hnd & _).
  rewrite Hfiles in Hnd. apply NoDup_app in Hnd as (Hnd1 & Hdisj & _).
  destruct (for_each_ok before d tr 0 Hnd1 Hok)
    as (d' & evs & Hloop & Hr & Hw & Hd' & He).
  cbn [Nat.add] in Hloop.
  exists d', evs.
  assert (∀ name, name ∈ bad :: later → d' !! name = d !! name) as Hkeep.
  { intros name Hname. apply Hd'. intros Hin. by eapply Hdisj. }
  split; [|split; [done|split; [done|split; [done|split; [|done]]]]].
  - rewrite main_in_dir, Hfiles, for_each_app, Hloop, for_each_cons.
    rewrite (fix_nested_html_unreadable _ _ _ e); [done|].
    rewrite Hkeep; [done|]. apply elem_of_cons. by left.
  - intros ev q Hin Hq. split; [by eapply He|].
    intros Hq'. eapply Hdisj; [|exact Hq']. by eapply He.
Qed.

Lemma unreadable_file_aborts_batch_witness :
  html_files three_files_locked = ["a.html"] ++ "b.html" :: ["c.html"]
  ∧ forallb (processable three_files_locked) ["a.html"] = true
  ∧ three_files_locked !! "b.html" = Some (Unreadable PermissionError)
  ∧ ∃ d' evs,
      main (World (Some three_files_locked) [])
      = (Raised PermissionError, World (Some d') ([] ++ evs))
      ∧ for_each ["a.html"] 0 (World (Some three_files_locked) [])
        = (Returned (length (List.filter (needs_fix three_files_locked)
                               ["a.html"])),
           World (Some d') ([] ++ evs))
      ∧ reads evs = ["a.html"]
      ∧ writes evs = List.filter (needs_fix three_files_locked) ["a.html"]
      ∧ (∀ ev q, ev ∈ evs → event_path ev = Some q →
           q ∈ ["a.html"] ∧ q ∉ "b.html" :: ["c.html"])
      ∧ (∀ name, name ∈ "b.html" :: ["c.html"] →
           d' !! name = three_files_locked !! name).
Proof.
  assert (html_files three_files_locked = ["a.html"] ++ "b.html" :: ["c.html"])
    as Hfiles by (vm_compute; reflexivity).
  assert (forallb (processable three_files_locked) ["a.html"] = true)
    as Hok by (vm_compute; reflexivity).
  assert (three_files_locked !! "b.html" = Some (Unreadable PermissionError))
    as Hbad by (vm_compute; reflexivity).
  split; [exact Hfiles|]. split; [exact Hok|]. split; [exact Hbad|].
  exact (unreadable_file_aborts_batch three_files_locked [] ["a.html"]
           "b.html" ["c.html"] PermissionError Hfiles Hok Hbad).
Defined.

(** ** More about one file *)

Lemma fix_nested_html_no_dir tr file_path :
  fix_nested_html file_path (World None tr)
  = (Raised FileNotFoundError, World None tr).
Proof. done. Qed.

Lemma fix_nested_html_missing (d : gmap string node) tr file_path :
  d !! file_path = None →
  fix_nested_html file_path (World (Some d) tr)
  = (Raised FileNotFoundError, World (Some d) tr).
Proof.
  intros Hd. unfold fix_nested_html, mbind, io_bind, read_text. cbn.
  by rewrite Hd.
Qed.

Lemma fix_nested_html_read_only (d : gmap string node) tr file_path content m :
  d !! file_path = Some (File content false) →
  search pattern content = Some m →
  fix_nested_html file_path (World (Some d) tr)
  = (Raised PermissionError,
     World (Some d) (tr ++ [EvRead file_path; EvPrint (FoundNested file_path)])).
Proof.
  intros Hd Hs. unfold fix_nested_html, mbind, io_bind.
  rewrite (read_text_file _ _ _ _ _ Hd), Hs.
  unfold print, write_text, emit, mret, io_ret. cbn. rewrite Hd.
  by rewrite <- !app_assoc.
Qed.

Lemma literal_lengths :
  length DIV_OPEN = 27 ∧ length DOCTYPE = 15 ∧ length BODY_OPEN = 5
  ∧ length GT = 1 ∧ length BODY_CLOSE = 7 ∧ length HTML_CLOSE = 7
  ∧ length DIV_CLOSE = 6.
Proof. vm_compute. done. Qed.

(** X1: a rewrite always makes the text shorter, by 35 characters at
    least (the five literals of the boilerplate); so a file for which
    [fix_nested_html] returns [True] never holds the text it held. *)
Theorem rewrite_shrinks (d d' : gmap string node) tr tr' file_path content :
  d !! file_path = Some (File content true) →
  fix_nested_html file_path (World (Some d) tr)
  = (Returned true, World (Some d') tr') →
  ∃ out, d' !! file_path = Some (File out true)
         ∧ length out + 35 ≤ length content
         ∧ out ≠ content.
Proof.
  intros Hd Hfix. destruct (search pattern content) as [m|] eqn:Hs.
  - rewrite (fix_nested_html_match d tr file_path content m Hd Hs) in Hfix.
    injection Hfix as <- _.
    apply search_pattern_sound in Hs
      as (before & o & after & E & _ & Hst & Hend & H1 & _ & H3 & _ & H5).
    rewrite (new_content_repaired content m before o after
               E Hst Hend H1 H3 H5).
    eexists. split; [apply lookup_insert_eq|].
    assert (length (before ++ repaired o ++ after) + 35 ≤ length content)
      as Hlen.
    { destruct literal_lengths as (_ & H15 & H5' & H1' & H7 & H7' & _).
      rewrite E. unfold repaired, wrapper, open_boilerplate, close_boilerplate.
      rewrite !length_app, H15, H5', H1', H7, H7'. lia. }
    split; [done|]. intros Heq. rewrite Heq in Hlen. lia.
  - by rewrite (fix_nested_html_no_match d tr file_path content true Hd Hs)
      in Hfix.
Qed.

Lemma rewrite_shrinks_witness :
  let d : gmap string node := {["page.html" := File scenario_in true]} in
  ∃ d' tr',
    d !! "page.html" = Some (File scenario_in true)
    ∧ fix_nested_html "page.html" (World (Some d) [])
      = (Returned true, World (Some d') tr')
    ∧ ∃ out, d' !! "page.html" = Some (File out true)
             ∧ length out + 35 ≤ length scenario_in
             ∧ out ≠ scenario_in.
Proof.
  intros d.
  assert (d !! "page.html" = Some (File scenario_in true)) as Hd
    by (vm_compute; reflexivity).
  destruct (fix_nested_html "page.html" (World (Some d) []))
    as [[[|]|e] [[d'|] tr']] eqn:Hfix;
    try (exfalso; revert Hfix; vm_compute; discriminate).
  exists d', tr'. split; [exact Hd|]. split; [reflexivity|].
  exact (rewrite_shrinks d d' [] tr' "page.html" scenario_in Hd Hfix).
Defined.

(** X2: for a file that can be written, [fix_nested_html] returns [True]
    exactly when the text holds, in this order, the wrapper's open tag, a
    DOCTYPE, a [<body], a [>], a [</body>] followed after white space only
    by [</html>], and a [</div>]; otherwise it returns [False]. *)
Theorem changed_iff_wrapper (d : gmap string node) tr file_path content :
  d !! file_path = Some (File content true) →
  ((fix_nested_html file_path (World (Some d) tr)).1 = Returned true
   ↔ ∃ before o after,
       content = before ++ wrapper o ++ after
       ∧ forallb is_space (gap o) = true)
  ∧ ((fix_nested_html file_path (World (Some d) tr)).1 = Returned false
     ↔ ¬ ∃ before o after,
         content = before ++ wrapper o ++ after
         ∧ forallb is_space (gap o) = true).
Proof.
  intros Hd. rewrite <- search_is_Some_iff.
  destruct (search pattern content) as [m|] eqn:Hs.
  - rewrite (fix_nested_html_match d tr file_path content m Hd Hs). cbn.
    split; [by eauto|]. split; [done|]. intros H. by destruct H.
  - rewrite (fix_nested_html_no_match d tr file_path content true Hd Hs). cbn.
    split; [|split; [by intros _ [? ?]|done]].
    split; [done|]. by intros [? ?].
Qed.

Lemma changed_iff_wrapper_witness :
  let d : gmap string node := {["page.html" := File scenario_in true]} in
  d !! "page.html" = Some (File scenario_in true)
  ∧ ((fix_nested_html "page.html" (World (Some d) [])).1 = Returned true
     ↔ ∃ before o after,
         scenario_in = before ++ wrapper o ++ after
         ∧ forallb is_space (gap o) = true)
  ∧ ((fix_nested_html "page.html" (World (Some d) [])).1 = Returned false
     ↔ ¬ ∃ before o after,
         scenario_in = before ++ wrapper o ++ after
         ∧ forallb is_space (gap o) = true).
Proof.
  intros d.
  assert (d !! "page.html" = Some (File scenario_in true)) as Hd
    by (vm_compute; reflexivity).
  split; [exact Hd|].
  exact (changed_iff_wrapper d [] "page.html" scenario_in Hd).
Defined.

(** X3: no partial repair. When one of the seven literals of the pattern
    occurs nowhere in the text (a nested document without its closing
    [</html>], say, or a DOCTYPE in lower case), the pattern does not match
    and the file is only read. *)
Theorem missing_literal_no_change (d : gmap string node) tr file_path
    content wr :
  d !! file_path = Some (File content wr) →
  forallb (λ w, occurs w content) pattern_literals = false →
  search pattern content = None
  ∧ fix_nested_html file_path (World (Some d) tr)
    = (Returned false, World (Some d) (tr ++ [EvRead file_path])).
Proof.
  intros Hd Hmiss.
  assert (search pattern content = None) as Hs.
  { destruct (search pattern content) as [m|] eqn:E; [exfalso|done].
    apply search_pattern_sound in E as (before & o & after & -> & _).
    assert (forallb (λ w, occurs w (before ++ wrapper o ++ after))
              pattern_literals = true) as H; [|congruence].
    unfold pattern_literals, wrapper, open_boilerplate, close_boilerplate.
    cbn [forallb]. rewrite <- !app_assoc.
    repeat (apply andb_true_intro; split); try done; apply occurs_iff.
    - by exists before, (lead o ++ DOCTYPE ++ prolog o ++ BODY_OPEN ++ attrs o
        ++ GT ++ inner o ++ BODY_CLOSE ++ gap o ++ HTML_CLOSE ++ tail o
        ++ DIV_CLOSE ++ after).
    - exists (before ++ DIV_OPEN ++ lead o),
        (prolog o ++ BODY_OPEN ++ attrs o ++ GT ++ inner o ++ BODY_CLOSE
         ++ gap o ++ HTML_CLOSE ++ tail o ++ DIV_CLOSE ++ after).
      by rewrite <- !app_assoc.
    - exists (before ++ DIV_OPEN ++ lead o ++ DOCTYPE ++ prolog o),
        (attrs o ++ GT ++ inner o ++ BODY_CLOSE ++ gap o ++ HTML_CLOSE
         ++ tail o ++ DIV_CLOSE ++ after).
      by rewrite <- !app_assoc.
    - exists (before ++ DIV_OPEN ++ lead o ++ DOCTYPE ++ prolog o ++ BODY_OPEN
              ++ attrs o),
        (inner o ++ BODY_CLOSE ++ gap o ++ HTML_CLOSE ++ tail o ++ DIV_CLOSE
         ++ after).
      by rewrite <- !app_assoc.
    - exists (before ++ DIV_OPEN ++ lead o ++ DOCTYPE ++ prolog o ++ BODY_OPEN
              ++ attrs o ++ GT ++ inner o),
        (gap o ++ HTML_CLOSE ++ tail o ++ DIV_CLOSE ++ after).
      by rewrite <- !app_assoc.
    - exists (before ++ DIV_OPEN ++ lead o ++ DOCTYPE ++ prolog o ++ BODY_OPEN
              ++ attrs o ++ GT ++ inner o ++ BODY_CLOSE ++ gap o),
        (tail o ++ DIV_CLOSE ++ after).
      by rewrite <- !app_assoc.
    - exists (before ++ DIV_OPEN ++ lead o ++ DOCTYPE ++ prolog o ++ BODY_OPEN
              ++ attrs o ++ GT ++ inner o ++ BODY_CLOSE ++ gap o ++ HTML_CLOSE
              ++ tail o), after.
      by rewrite <- !app_assoc. }
  split; [done|]. by eapply fix_nested_html_no_match.
Qed.

Lemma missing_literal_no_change_witness :
  let content :=
    DIV_OPEN ++ text_of "<!doctype html><body>x</body></html></div>" in
  let d : gmap string node := {["page.html" := File content true]} in
  d !! "page.html" = Some (File content true)
  ∧ forallb (λ w, occurs w content) pattern_literals = false
  ∧ search pattern content = None
  ∧ fix_nested_html "page.html" (World (Some d) [])
    = (Returned false, World (Some d) ([] ++ [EvRead "page.html"])).
Proof.
  intros content d.
  assert (d !! "page.html" = Some (File content true)) as Hd
    by (vm_compute; reflexivity).
  assert (forallb (λ w, occurs w content) pattern_literals = false) as Hm
    by (vm_compute; reflexivity).
  split; [exact Hd|]. split; [exact Hm|].
  exact (missing_literal_no_change d [] "page.html" content true Hd Hm).
Defined.

(** One run, whatever the file is. *)
Lemma fix_nested_html_step (d : gmap string node) tr name :
  ∃ r d' evs,
    fix_nested_html name (World (Some d) tr) = (r, World (Some d') (tr ++ evs))
    ∧ (∀ other, other ≠ name → d' !! other = d !! other)
    ∧ (d' = d ∧ r ≠ Returned true
       ∨ (∃ content m,
            d !! name = Some (File content true)
            ∧ search pattern content = Some m
            ∧ d' = <[name := File (new_content content m) true]> d
            ∧ r = Returned true)
       ∨ (∃ content e remains m,
            d !! name = Some (Fragile content e remains)
            ∧ search pattern content = Some m
            ∧ d' = <[name := remains]> d
            ∧ r = Raised e))
    ∧ (∀ ev q, ev ∈ evs → event_path ev = Some q → q = name).
Proof.
  destruct (d !! name) as [[content wr|e|content e remains]|] eqn:Hd.
  - destruct (search pattern content) as [m|] eqn:Hs; [destruct wr|].
    + eexists _, _, _.
      split; [by apply fix_nested_html_match|].
      split; [intros other Hne; by rewrite lookup_insert_ne|].
      split; [right; left; by exists content, m|].
      intros ev q Hin. rewrite !elem_of_cons, elem_of_nil in Hin.
      destruct Hin as [->|[->|[->|[->|[]]]]]; cbn; congruence.
    + eexists _, _, _.
      split; [by eapply fix_nested_html_read_only|].
      split; [done|]. split; [by left|].
      intros ev q Hin. rewrite !elem_of_cons, elem_of_nil in Hin.
      destruct Hin as [->|[->|[]]]; cbn; congruence.
    + eexists _, _, _.
      split; [by eapply fix_nested_html_no_match|].
      split; [done|]. split; [by left|].
      intros ev q ->%list_elem_of_singleton. cbn. congruence.
  - exists (Raised e), d, []. rewrite app_nil_r.
    split; [by apply fix_nested_html_unreadable|].
    split; [done|]. split; [by left|]. intros ev q Hin.
    by apply elem_of_nil in Hin.
  - destruct (search pattern content) as [m|] eqn:Hs.
    + eexists _, _, _.
      split; [by eapply fix_nested_html_fragile_match|].
      split; [intros other Hne; by rewrite lookup_insert_ne|].
      split; [right; right; by exists content, e, remains, m|].
      intros ev q Hin. rewrite !elem_of_cons, elem_of_nil in Hin.
      destruct Hin as [->|[->|[]]]; cbn; congruence.
    + eexists _, _, _.
      split; [by eapply fix_nested_html_fragile_no_match|].
      split; [done|]. split; [by left|].
      intros ev q ->%list_elem_of_singleton. cbn. congruence.
  - exists (Raised FileNotFoundError), d, []. rewrite app_nil_r.
    split; [by apply fix_nested_html_missing|].
    split; [done|]. split; [by left|]. intros ev q Hin.
    by apply elem_of_nil in Hin.
Qed.

(** X4: [fix_nested_html] touches the file it is given and no other. In
    every world and for every path, whether it returns or raises: the
    other entries of the directory are what they were, no name appears or
    disappears, and the trace is only added to. When [False] is returned
    the directory is exactly what it was; when an error is raised it is
    what it was too, unless the error is that of a write that failed after
    the file was truncated, and then the file holds what that write left
    of it. *)
Theorem fix_touches_one_file (w : world) file_path :
  (∀ other, other ≠ file_path →
     html_dir (fix_nested_html file_path w).2 ≫= (.!! other)
     = html_dir w ≫= (.!! other))
  ∧ (∀ name,
       is_Some (html_dir (fix_nested_html file_path w).2 ≫= (.!! name))
       ↔ is_Some (html_dir w ≫= (.!! name)))
  ∧ ((fix_nested_html file_path w).1 = Returned false →
     html_dir (fix_nested_html file_path w).2 = html_dir w)
  ∧ (∀ e, (fix_nested_html file_path w).1 = Raised e →
       html_dir (fix_nested_html file_path w).2 = html_dir w
       ∨ ∃ d content remains m,
           html_dir w = Some d
           ∧ d !! file_path = Some (Fragile content e remains)
           ∧ search pattern content = Some m
           ∧ html_dir (fix_nested_html file_path w).2
             = Some (<[file_path := remains]> d))
  ∧ ∃ evs, trace (fix_nested_html file_path w).2 = trace w ++ evs.
Proof.
  destruct w as [[d|] tr].
  - destruct (fix_nested_html_step d tr file_path)
      as (r & d' & evs & -> & Hother & Hcase & _). cbn.
    split; [done|]. split; [|split; [|split; [|by exists evs]]].
    + intros name.
      destruct Hcase as [[-> _]|[(c & m & Hd & _ & -> & _)
                                |(c & e & rm & m & Hd & _ & -> & _)]];
        [done| |].
      * destruct (decide (name = file_path)) as [->|Hne].
        -- rewrite lookup_insert_eq, Hd. split; by eauto.
        -- by rewrite lookup_insert_ne.
      * destruct (decide (name = file_path)) as [->|Hne].
        -- rewrite lookup_insert_eq, Hd. split; by eauto.
        -- by rewrite lookup_insert_ne.
    + intros Hr.
      destruct Hcase as [[-> _]|[(c & m & _ & _ & _ & ->)
                                |(c & e & rm & m & _ & _ & _ & ->)]]; done.
    + intros e Hr.
      destruct Hcase as [[-> _]|[(c & m & _ & _ & _ & ->)
                                |(c & e' & rm & m & Hd & Hs & -> & ->)]];
        [by left|done|].
      injection Hr as ->. right. by exists d, c, rm, m.
  - rewrite fix_nested_html_no_dir. cbn.
    split; [done|]. split; [done|]. split; [done|]. split; [by left|].
    exists []. by rewrite app_nil_r.
Qed.

(** X5: running [fix_nested_html] again repairs the next wrapper. For a
    text with two wrappers around well-formed nested documents and no other
    DOCTYPE up to the second one, two runs both return [True] and leave the
    text with both wrappers repaired. *)
Theorem two_runs_repair_two_wrappers (d : gmap string node) tr file_path
    pre o1 mid o2 post :
  occurs DIV_OPEN pre = false →
  well_formed o1 = true → well_formed o2 = true →
  occurs DOCTYPE (lead o1 ++ inner o1 ++ tail o1 ++ DIV_CLOSE ++ mid
                  ++ DIV_OPEN ++ lead o2) = false →
  d !! file_path
  = Some (File (pre ++ wrapper o1 ++ mid ++ wrapper o2 ++ post) true) →
  ∃ d1 tr1 d2 tr2,
    fix_nested_html file_path (World (Some d) tr)
    = (Returned true, World (Some d1) tr1)
    ∧ d1 !! file_path
      = Some (File (pre ++ repaired o1 ++ mid ++ wrapper o2 ++ post) true)
    ∧ fix_nested_html file_path (World (Some d1) tr1)
      = (Returned true, World (Some d2) tr2)
    ∧ d2 !! file_path
      = Some (File (pre ++ repaired o1 ++ mid ++ repaired o2 ++ post) true).
Proof.
  intros Hpre Ho1 Ho2 Hdoc Hd.
  eexists _, _, _, _.
  split; [by apply (fix_nested_html_first_wrapper d tr file_path pre o1
                      (mid ++ wrapper o2 ++ post))|].
  split; [apply lookup_insert_eq|].
  set (o' := Nested (lead o1 ++ inner o1 ++ tail o1 ++ DIV_CLOSE ++ mid
                     ++ DIV_OPEN ++ lead o2)
                    (prolog o2) (attrs o2) (inner o2) (gap o2) (tail o2)).
  assert (pre ++ repaired o1 ++ mid ++ wrapper o2 ++ post
          = pre ++ wrapper o' ++ post) as E1.
  { unfold repaired, wrapper, open_boilerplate, close_boilerplate, o'.
    cbn [lead prolog attrs inner gap tail]. by rewrite <- !app_assoc. }
  assert (pre ++ repaired o1 ++ mid ++ repaired o2 ++ post
          = pre ++ repaired o' ++ post) as E2.
  { unfold repaired, o'. cbn [lead inner tail]. by rewrite <- !app_assoc. }
  assert (well_formed o' = true) as Ho'.
  { unfold well_formed in *. unfold o'.
    cbn [lead prolog attrs inner gap tail]. rewrite Hdoc. rewrite !andb_true_iff in *. tauto. }
  rewrite E1, E2. split.
  - apply (fix_nested_html_first_wrapper _ _ file_path pre o' post);
      [done|done|apply lookup_insert_eq].
  - apply lookup_insert_eq.
Qed.

Lemma two_runs_repair_two_wrappers_witness :
  let pre := text_of "<main>" in
  let mid := text_of "<hr>" in
  let post := text_of "</main>" in
  let o := example_nested in
  let d : gmap string node := {["page.html" := File two_wrappers true]} in
  occurs DIV_OPEN pre = false
  ∧ well_formed o = true
  ∧ occurs DOCTYPE (lead o ++ inner o ++ tail o ++ DIV_CLOSE ++ mid
                    ++ DIV_OPEN ++ lead o) = false
  ∧ d !! "page.html"
    = Some (File (pre ++ wrapper o ++ mid ++ wrapper o ++ post) true)
  ∧ ∃ d1 tr1 d2 tr2,
      fix_nested_html "page.html" (World (Some d) [])
      = (Returned true, World (Some d1) tr1)
      ∧ d1 !! "page.html"
        = Some (File (pre ++ repaired o ++ mid ++ wrapper o ++ post) true)
      ∧ fix_nested_html "page.html" (World (Some d1) tr1)
        = (Returned true, World (Some d2) tr2)
      ∧ d2 !! "page.html"
        = Some (File (pre ++ repaired o ++ mid ++ repaired o ++ post) true).
Proof.
  intros pre mid post o d.
  assert (occurs DIV_OPEN pre = false) as Hp by (vm_compute; reflexivity).
  assert (well_formed o = true) as Ho by (vm_compute; reflexivity).
  assert (occurs DOCTYPE (lead o ++ inner o ++ tail o ++ DIV_CLOSE ++ mid
                          ++ DIV_OPEN ++ lead o) = false) as Hdoc
    by (vm_compute; reflexivity).
  assert (d !! "page.html"
          = Some (File (pre ++ wrapper o ++ mid ++ wrapper o ++ post) true))
    as Hd by (vm_compute; reflexivity).
  split; [exact Hp|]. split; [exact Ho|]. split; [exact Hdoc|].
  split; [exact Hd|].
  exact (two_runs_repair_two_wrappers d [] "page.html" pre o mid o post
           Hp Ho Ho Hdoc Hd).
Defined.

(** ** More about the batch *)

(** What became of an entry: nothing, its repair, or what a failed write
    left of it. *)
Lemma fix_nested_html_step_entry (d d' : gmap string node) tr w' r name :
  fix_nested_html name (World (Some d) tr) = (r, w') →
  html_dir w' = Some d' →
  ∀ x,
    d' !! x = d !! x
    ∨ (∃ content m,
         x = name ∧ d !! x = Some (File content true)
         ∧ search pattern content = Some m
         ∧ d' !! x = Some (File (new_content content m) true))
    ∨ (∃ content e remains m,
         x = name ∧ d !! x = Some (Fragile content e remains)
         ∧ search pattern content = Some m
         ∧ d' !! x = Some remains).
Proof.
  intros Hfix Hd' x.
  destruct (fix_nested_html_step d tr name)
    as (r1 & d1 & evs1 & Hfix1 & _ & Hcase & _).
  rewrite Hfix in Hfix1. injection Hfix1 as -> ->.
  cbn in Hd'. injection Hd' as <-.
  destruct Hcase as [[-> _]|[(c & m & Hd & Hs & -> & _)
                            |(c & e & rm & m & Hd & Hs & -> & _)]];
    [by left| |].
  - destruct (decide (x = name)) as [->|Hne].
    + right. left. exists c, m. by rewrite lookup_insert_eq.
    + left. by rewrite lookup_insert_ne.
  - destruct (decide (x = name)) as [->|Hne].
    + right. right. exists c, e, rm, m. by rewrite lookup_insert_eq.
    + left. by rewrite lookup_insert_ne.
Qed.

(** The loop, whatever the files are. *)
Lemma for_each_any files :
  ∀ (d : gmap string node) tr n,
    NoDup files →
    ∃ r d' evs,
      for_each files n (World (Some d) tr) = (r, World (Some d') (tr ++ evs))
      ∧ (∀ other, other ∉ files → d' !! other = d !! other)
      ∧ (∀ name,
           d' !! name = d !! name
           ∨ (∃ content m,
                d !! name = Some (File content true)
                ∧ search pattern content = Some m
                ∧ d' !! name = Some (File (new_content content m) true))
           ∨ (∃ content e remains m,
                d !! name = Some (Fragile content e remains)
                ∧ search pattern content = Some m
                ∧ d' !! name = Some remains))
      ∧ (∀ ev q, ev ∈ evs → event_path ev = Some q → q ∈ files).
Proof.
  induction files as [|name rest IH]; intros d tr n Hnd.
  - exists (Returned n), d, []. rewrite app_nil_r.
    split; [done|]. split; [done|]. split; [by left|].
    intros ev q Hin. by apply elem_of_nil in Hin.
  - apply NoDup_cons in Hnd as [Hnotin Hnd].
    destruct (fix_nested_html_step d tr name)
      as (r1 & d1 & evs1 & Hfix & Hother & _ & He1).
    pose proof (fix_nested_html_step_entry d d1 tr _ r1 name Hfix eq_refl)
      as Hd1.
    rewrite for_each_cons, Hfix.
    destruct r1 as [fixed|e].
    + destruct (IH d1 (tr ++ evs1) (if fixed then n + 1 else n) Hnd)
        as (r & d' & evs & Hloop & Hrest & Hall & He).
      exists r, d', (evs1 ++ evs). rewrite Hloop, <- app_assoc.
      split; [done|]. split; [|split].
      * intros other [Hne Hnr]%not_elem_of_cons.
        rewrite (Hrest other Hnr). by apply Hother.
      * intros x. destruct (decide (x ∈ rest)) as [Hin|Hnin].
        -- assert (d1 !! x = d !! x) as Hsame.
           { apply Hother. intros ->. done. }
           destruct (Hall x) as [Heq|[(c & m & Hc & Hs & Hx)
                                     |(c & e & rm & m & Hc & Hs & Hx)]].
           ++ left. by rewrite Heq.
           ++ right. left. exists c, m. by rewrite <- Hsame.
           ++ right. right. exists c, e, rm, m. by rewrite <- Hsame.
        -- rewrite (Hrest x Hnin).
           destruct (Hd1 x) as [Heq|[(c & m & _ & Hc & Hs & Hx)
                                    |(c & e & rm & m & _ & Hc & Hs & Hx)]];
             [by left|right; left; by exists c, m
             |right; right; by exists c, e, rm, m].
      * intros ev q [Hin|Hin]%elem_of_app Hq.
        -- rewrite (He1 ev q Hin Hq). apply elem_of_cons. by left.
        -- apply elem_of_cons. right. by eapply He.
    + exists (Raised e), d1, evs1.
      split; [done|]. split; [|split].
      * intros other [Hne Hnr]%not_elem_of_cons. by apply Hother.
      * intros x.
        destruct (Hd1 x) as [Heq|[(c & m & _ & Hc & Hs & Hx)
                                 |(c & e' & rm & m & _ & Hc & Hs & Hx)]];
          [by left|right; left; by exists c, m
          |right; right; by exists c, e', rm, m].
      * intros ev q Hin Hq. rewrite (He1 ev q Hin Hq).
        apply elem_of_cons. by left.
Qed.

(** X6: what [main] never does. In every directory, whether the run ends
    or raises, no name appears or disappears, a file whose name does not end
    in [.html] is what it was, and every file is what it was, or the repair
    of what it was, or what a write that failed after truncating it left of
    it; every event about a file is about one of the HTML files. *)
Theorem main_keeps_the_rest (d : gmap string node) tr :
  ∃ d' evs,
    (main (World (Some d) tr)).2 = World (Some d') (tr ++ evs)
    ∧ (∀ name, is_Some (d' !! name) ↔ is_Some (d !! name))
    ∧ (∀ name, ends_with ".html" name = false → d' !! name = d !! name)
    ∧ (∀ name,
         d' !! name = d !! name
         ∨ (∃ content m,
              d !! name = Some (File content true)
              ∧ search pattern content = Some m
              ∧ d' !! name = Some (File (new_content content m) true))
         ∨ (∃ content e remains m,
              d !! name = Some (Fragile content e remains)
              ∧ search pattern content = Some m
              ∧ d' !! name = Some remains))
    ∧ (∀ ev q, ev ∈ evs → event_path ev = Some q →
         is_Some (d !! q) ∧ ends_with ".html" q = true).
Proof.
  destruct (html_files_spec d) as (Hin & Hnd & _).
  destruct (for_each_any (html_files d) d tr 0 Hnd)
    as (r & d' & evs & Hloop & Hrest & Hall & He).
  assert (∀ name, is_Some (d' !! name) ↔ is_Some (d !! name)) as Hdom.
  { intros name.
    destruct (Hall name) as [->|[(c & m & -> & _ & ->)
                                |(c & e & rm & m & -> & _ & ->)]];
      [done|split; by eauto|split; by eauto]. }
  assert (∀ name, ends_with ".html" name = false → d' !! name = d !! name)
    as Hkeep.
  { intros name Hname. apply Hrest. rewrite Hin. intros [_ ?]. congruence. }
  rewrite main_in_dir, Hloop. destruct r as [k|e]; cbn.
  - exists d', (evs ++ [EvPrint (Processed (length (html_files d)) k)]).
    unfold emit. cbn. rewrite <- app_assoc.
    split; [done|]. split; [done|]. split; [done|]. split; [done|].
    intros ev q [Hev| ->%list_elem_of_singleton]%elem_of_app Hq; [|done].
    apply Hin. by eapply He.
  - exists d', evs.
    split; [done|]. split; [done|]. split; [done|]. split; [done|].
    intros ev q Hev Hq. apply Hin. by eapply He.
Qed.

(** The loop over files that can all be processed leaves each of them
    repaired. *)
Lemma for_each_store files :
  ∀ (d : gmap string node) tr n,
    NoDup files → forallb (processable d) files = true →
    ∃ k d' tr',
      for_each files n (World (Some d) tr) = (Returned k, World (Some d') tr')
      ∧ ∀ name,
          d' !! name = if bool_decide (name ∈ files)
                       then repair_node <$> d !! name else d !! name.
Proof.
  induction files as [|name rest IH]; intros d tr n Hnd Hok.
  - exists n, d, tr. split; [done|]. intros name.
    by rewrite bool_decide_eq_false_2 by apply not_elem_of_nil.
  - apply NoDup_cons in Hnd as [Hnotin Hnd].
    cbn [forallb] in Hok. apply andb_prop in Hok as [Hname Hrest].
    destruct (fix_nested_html_step d tr name)
      as (r1 & d1 & evs1 & Hfix & Hother & Hcase & _).
    assert (d1 !! name = repair_node <$> d !! name ∧ ∃ b, r1 = Returned b)
      as [Hd1 [b ->]].
    { unfold processable in Hname.
      destruct (d !! name) as [[c wr|e|c e rm]|] eqn:Hd; try done.
      - destruct (search pattern c) as [m|] eqn:Hs.
        + rewrite bool_decide_eq_true_2, orb_false_r in Hname by eauto.
          subst wr.
          rewrite (fix_nested_html_match d tr name c m Hd Hs) in Hfix.
          injection Hfix as <- <- _. split; [|by eauto].
          rewrite lookup_insert_eq. cbn. by rewrite Hs.
        + rewrite (fix_nested_html_no_match d tr name c wr Hd Hs) in Hfix.
          injection Hfix as <- <- _. split; [|by eauto].
          rewrite Hd. cbn. by rewrite Hs.
      - destruct (search pattern c) as [m|] eqn:Hs.
        + by rewrite bool_decide_eq_true_2 in Hname by eauto.
        + rewrite (fix_nested_html_fragile_no_match d tr name c e rm Hd Hs)
            in Hfix.
          injection Hfix as <- <- _. split; [|by eauto].
          rewrite Hd. cbn. by rewrite Hs. }
    assert (forallb (processable d1) rest = true) as Hrest1.
    { apply forallb_forall. intros x Hx%list_elem_of_In.
      unfold processable. rewrite Hother by (by intros ->).
      rewrite forallb_forall in Hrest. by apply Hrest, list_elem_of_In. }
    destruct (IH d1 (tr ++ evs1) (if b then n + 1 else n) Hnd Hrest1)
      as (k & d' & tr' & Hloop & Hstore).
    exists k, d', tr'. rewrite for_each_cons, Hfix. split; [done|].
    intros x. rewrite Hstore.
    destruct (decide (x = name)) as [->|Hne].
    + rewrite (bool_decide_eq_false_2 (name ∈ rest)) by done.
      rewrite bool_decide_eq_true_2 by (apply elem_of_cons; by left). done.
    + rewrite Hother by done.
      destruct (decide (x ∈ rest)) as [Hin|Hnin].
      * rewrite !bool_decide_eq_true_2;
          [done|apply elem_of_cons; by right|done].
      * rewrite !bool_decide_eq_false_2; [done| |done].
        intros [?|?]%elem_of_cons; done.
Qed.

(** X7: what a run of [main] that can process its files leaves behind.
    Every file whose name ends in [.html] holds the repair of the text it
    held at the start (the same text when the pattern does not match it),
    each file being rewritten from its own text only; every other entry is
    what it was. *)
Theorem main_repairs_each_html_file (d : gmap string node) tr :
  forallb (processable d) (html_files d) = true →
  ∃ d' tr',
    main (World (Some d) tr) = (Returned (), World (Some d') tr')
    ∧ ∀ name,
        d' !! name = if ends_with ".html" name
                     then repair_node <$> d !! name else d !! name.
Proof.
  intros Hok. destruct (html_files_spec d) as (Hin & Hnd & _).
  destruct (for_each_store (html_files d) d tr 0 Hnd Hok)
    as (k & d' & tr' & Hloop & Hstore).
  eexists d', _. rewrite main_in_dir, Hloop. split; [done|].
  intros name. rewrite Hstore.
  destruct (ends_with ".html" name) eqn:He.
  - destruct (d !! name) as [nd|] eqn:Hd.
    + rewrite bool_decide_eq_true_2; [done|]. apply Hin. by eauto.
    + by destruct (bool_decide _).
  - rewrite bool_decide_eq_false_2; [done|]. rewrite Hin.
    intros [_ ?]. congruence.
Qed.

Lemma main_repairs_each_html_file_witness :
  forallb (processable three_files) (html_files three_files) = true
  ∧ ∃ d' tr',
      main (World (Some three_files) []) = (Returned (), World (Some d') tr')
      ∧ ∀ name,
          d' !! name = if ends_with ".html" name
                       then repair_node <$> three_files !! name
                       else three_files !! name.
Proof.
  assert (forallb (processable three_files) (html_files three_files) = true)
    as Hok by (vm_compute; reflexivity).
  split; [exact Hok|].
  exact (main_repairs_each_html_file three_files [] Hok).
Defined.

(** X8: a file that matches but cannot be written stops the batch. [main]
    raises the error of the write after the file was read and reported as
    found; the file keeps its text, the files before it keep their repairs,
    the files after it are not touched, and no summary is printed. *)
Theorem read_only_file_aborts_batch (d : gmap string node) tr
    before bad later content :
  html_files d = before ++ bad :: later →
  forallb (processable d) before = true →
  d !! bad = Some (File content false) →
  needs_fix d bad = true →
  ∃ d' evs,
    main (World (Some d) tr)
    = (Raised PermissionError,
       World (Some d')
             (tr ++ evs ++ [EvRead bad; EvPrint (FoundNested bad)]))
    ∧ for_each before 0 (World (Some d) tr)
      = (Returned (length (List.filter (needs_fix d) before)),
         World (Some d') (tr ++ evs))
    ∧ (∀ name, name ∈ bad :: later → d' !! name = d !! name)
    ∧ (∀ ev q, ev ∈ evs → event_path ev = Some q → q ∈ before).
Proof.
  intros Hfiles Hok Hbad Hneeds.
  destruct (html_files_spec d) as (_ & Hnd & _).
  rewrite Hfiles in Hnd. apply NoDup_app in Hnd as (Hnd1 & Hdisj & _).
  destruct (for_each_ok before d tr 0 Hnd1 Hok)
    as (d' & evs & Hloop & _ & _ & Hd' & He).
  cbn [Nat.add] in Hloop. exists d', evs.
  assert (∀ name, name ∈ bad :: later → d' !! name = d !! name) as Hkeep.
  { intros name Hname. apply Hd'. intros Hin. by eapply Hdisj. }
  split; [|split; [done|split; [done|done]]].
  unfold needs_fix in Hneeds. rewrite Hbad in Hneeds.
  apply bool_decide_eq_true_1 in Hneeds as [m Hm].
  rewrite main_in_dir, Hfiles, for_each_app, Hloop, for_each_cons.
  rewrite (fix_nested_html_read_only d' _ bad content m); [|
    rewrite Hkeep; [done|apply elem_of_cons; by left]|done].
  by rewrite <- app_assoc.
Qed.

Lemma read_only_file_aborts_batch_witness :
  html_files read_only_files = ["a.html"] ++ "b.html" :: ["c.html"]
  ∧ forallb (processable read_only_files) ["a.html"] = true
  ∧ read_only_files !! "b.html" = Some (File scenario_in false)
  ∧ needs_fix read_only_files "b.html" = true
  ∧ ∃ d' evs,
      main (World (Some read_only_files) [])
      = (Raised PermissionError,
         World (Some d')
               ([] ++ evs ++ [EvRead "b.html"; EvPrint (FoundNested "b.html")]))
      ∧ for_each ["a.html"] 0 (World (Some read_only_files) [])
        = (Returned (length (List.filter (needs_fix read_only_files)
                               ["a.html"])),
           World (Some d') ([] ++ evs))
      ∧ (∀ name, name ∈ "b.html" :: ["c.html"] →
           d' !! name = read_only_files !! name)
      ∧ (∀ ev q, ev ∈ evs → event_path ev = Some q → q ∈ ["a.html"]).
Proof.
  assert (html_files read_only_files = ["a.html"] ++ "b.html" :: ["c.html"])
    as Hfiles by (vm_compute; reflexivity).
  assert (forallb (processable read_only_files) ["a.html"] = true)
    as Hok by (vm_compute; reflexivity).
  assert (read_only_files !! "b.html" = Some (File scenario_in false))
    as Hbad by (vm_compute; reflexivity).
  assert (needs_fix read_only_files "b.html" = true)
    as Hneeds by (vm_compute; reflexivity).
  split; [exact Hfiles|]. split; [exact Hok|]. split; [exact Hbad|].
  split; [exact Hneeds|].
  exact (read_only_file_aborts_batch read_only_files [] ["a.html"] "b.html"
           ["c.html"] scenario_in Hfiles Hok Hbad Hneeds).
Defined.

(** X9: a directory without HTML files. When no name in the directory ends
    in [.html] (an empty directory, for one), [main] reads nothing, writes
    nothing, and prints that it processed 0 files and fixed 0. *)
Theorem no_html_files_no_work (d : gmap string node) tr :
  forallb (λ name, negb (ends_with ".html" name)) (map_to_list d).*1 = true →
  main (World (Some d) tr)
  = (Returned (), World (Some d) (tr ++ [EvPrint (Processed 0 0)])).
Proof.
  intros Hnone. destruct (html_files_spec d) as (Hin & _).
  assert (html_files d = []) as Hfiles.
  { destruct (html_files d) as [|name rest] eqn:E; [done|exfalso].
    assert (name ∈ name :: rest) as Hname by (apply elem_of_cons; by left).
    apply Hin in Hname as [[nd Hnd] He].
    rewrite forallb_forall in Hnone.
    assert (negb (ends_with ".html" name) = true) as Hneg.
    { apply Hnone, list_elem_of_In, list_elem_of_fmap. exists (name, nd).
      split; [done|]. by apply elem_of_map_to_list. }
    by rewrite He in Hneg. }
  by rewrite main_in_dir, Hfiles.
Qed.

Lemma no_html_files_no_work_witness :
  let d : gmap string node :=
    {["notes.txt" := File scenario_in true]} in
  forallb (λ name, negb (ends_with ".html" name)) (map_to_list d).*1 = true
  ∧ main (World (Some d) [])
    = (Returned (), World (Some d) ([] ++ [EvPrint (Processed 0 0)])).
Proof.
  intros d.
  assert (forallb (λ name, negb (ends_with ".html" name)) (map_to_list d).*1
          = true) as Hnone by (vm_compute; reflexivity).
  split; [exact Hnone|]. exact (no_html_files_no_work d [] Hnone).
Defined.

(** ** The match, exactly *)

Lemma take_skip_spaces (s : text) :
  s = take_spaces s ++ skip_spaces s ∧ forallb is_space (take_spaces s) = true.
Proof.
  induction s as [|c s [IH1 IH2]]; [done|]. simpl.
  destruct (is_space c) eqn:Hc; [|done]. simpl.
  rewrite Hc, IH2. split; [by f_equal|done].
Qed.

Lemma skip_spaces_app (ws w r : text) :
  forallb is_space ws = true → head_no_space w = true →
  skip_spaces (ws ++ w ++ r) = w ++ r.
Proof.
  intros Hws Hw. induction ws as [|c ws IH]; simpl in *.
  - destruct w as [|c w]; [done|]. simpl in *.
    by apply negb_true_iff in Hw as ->.
  - apply andb_prop in Hws as [-> Hws]. by apply IH.
Qed.

Lemma literals_no_space :
  head_no_space HTML_CLOSE = true ∧ head_no_space BODY_CLOSE = true.
Proof. vm_compute. done. Qed.

Lemma closes_at_intro (ws r : text) :
  forallb is_space ws = true →
  closes_at (BODY_CLOSE ++ ws ++ HTML_CLOSE ++ r) = true.
Proof.
  intros Hws. unfold closes_at.
  rewrite starts_with_app, drop_app_length. cbn [andb].
  rewrite skip_spaces_app; [apply starts_with_app|done|apply literals_no_space].
Qed.

Lemma closes_at_split (s : text) :
  closes_at s = true →
  ∃ ws r, s = BODY_CLOSE ++ ws ++ HTML_CLOSE ++ r
          ∧ forallb is_space ws = true.
Proof.
  unfold closes_at. intros [H1 H2]%andb_prop.
  apply starts_with_split in H1, H2.
  destruct (take_skip_spaces (drop (length BODY_CLOSE) s)) as [E Hws].
  exists (take_spaces (drop (length BODY_CLOSE) s)),
    (drop (length HTML_CLOSE) (skip_spaces (drop (length BODY_CLOSE) s))).
  split; [|done]. rewrite <- H2, <- E. done.
Qed.

Lemma closes_at_app (x t : text) :
  closes_at x = true → closes_at (x ++ t) = true.
Proof.
  intros (ws & r & -> & Hws)%closes_at_split.
  rewrite <- !app_assoc. by apply closes_at_intro.
Qed.

Lemma head_unique_inv (c : N) (w x l : text) :
  head_unique (c :: w) = true → c :: w = x ++ c :: l → x = [].
Proof.
  intros Hu E. destruct x as [|c' x]; [done|exfalso].
  simpl in *. injection E as <- ->.
  apply negb_true_iff in Hu. rewrite existsb_app in Hu. simpl in Hu.
  by rewrite N.eqb_refl, orb_true_r in Hu.
Qed.

Lemma body_close_is_not_html_close (t r : text) :
  BODY_CLOSE ++ t = HTML_CLOSE ++ r → False.
Proof.
  intros E. apply app_inj_1 in E as [E _]; [|done].
  revert E. vm_compute. discriminate.
Qed.

(** The closing boilerplate cannot run into a [</body>] that follows. *)
Lemma closes_at_cut (x t : text) :
  x ≠ [] → closes_at (x ++ BODY_CLOSE ++ t) = true → closes_at x = true.
Proof.
  intros Hx (ws & r & E & Hws)%closes_at_split.
  destruct literal_heads as (_ & _ & _ & _ & Hub & Huh & _).
  assert (∀ l, BODY_CLOSE ++ t = l ++ r → l ≠ [] →
               ∃ l', l = 60%N :: l') as Hhead.
  { intros [|c l] El Hl; [done|]. exists l.
    change BODY_CLOSE with (60%N :: text_of "/body>") in El.
    simpl in El. by injection El as <- _. }
  rewrite (app_assoc BODY_CLOSE), (app_assoc _ HTML_CLOSE) in E.
  apply app_eq_app in E as [l [[-> _]|[E1 E2]]].
  { rewrite <- !app_assoc. by apply closes_at_intro. }
  destruct (decide (l = [])) as [->|Hl].
  { rewrite app_nil_r in E1. subst x.
    rewrite <- (app_nil_r HTML_CLOSE), <- !app_assoc.
    by apply closes_at_intro. }
  exfalso. destruct (Hhead l E2 Hl) as [l' ->].
  assert (is_space 60 = false) as H60 by done.
  assert (60%N :: l' = HTML_CLOSE → False) as Hhtml.
  { intros El. rewrite El in E2.
    by apply body_close_is_not_html_close in E2. }
  rewrite <- app_assoc in E1.
  apply app_eq_app in E1 as [l2 [[E3 E4]|[E3 E4]]].
  - (* the [<] lies within [</body>] *)
    destruct l2 as [|c2 l2].
    + rewrite app_nil_l in E4. destruct ws as [|c ws].
      * by rewrite app_nil_l in E4.
      * rewrite <- app_comm_cons in E4. injection E4 as <- _.
        cbn [forallb] in Hws. by rewrite H60 in Hws.
    + rewrite <- app_comm_cons in E4. injection E4 as <- _.
      change BODY_CLOSE with (60%N :: text_of "/body>") in E3, Hub.
      by apply (head_unique_inv _ _ _ _ Hub) in E3.
  - (* the [<] lies after [</body>] *)
    apply app_eq_app in E4 as [l3 [[E5 E6]|[E5 E6]]].
    + destruct l3 as [|c3 l3].
      * by rewrite app_nil_l in E6.
      * rewrite <- app_comm_cons in E6. injection E6 as <- _. subst ws.
        apply forallb_app_inv in Hws as [_ Hc].
        cbn [forallb] in Hc. by rewrite H60 in Hc.
    + destruct l3 as [|c3 l3].
      * rewrite app_nil_l in E6. by symmetry in E6.
      * change HTML_CLOSE with (60%N :: text_of "/html>") in E6, Huh.
        by apply (head_unique_inv _ _ _ _ Huh) in E6.
Qed.

Lemma closes_in_app (x1 x2 : text) :
  x2 ≠ [] → closes_at x2 = true → closes_in (x1 ++ x2) = true.
Proof.
  intros Hne Hx2. induction x1 as [|c x1 IH]; simpl.
  - destruct x2; [done|]. simpl. by rewrite Hx2.
  - rewrite IH. apply orb_true_r.
Qed.

Section Close.
Context {R : Type}.

(** After [</body>], [\s*</html>] fails when no [</html>] follows the
    white space. *)
Lemma close_fails (k : nat → text → option R) i t :
  (∀ j u, starts_with HTML_CLOSE u = false → k j u = None) →
  closes_at t = false →
  (if starts_with BODY_CLOSE t
   then max_repeat SpaceChar k i (drop (length BODY_CLOSE) t)
   else None) = None.
Proof.
  intros Hk Hno. unfold closes_at in Hno.
  destruct (starts_with BODY_CLOSE t); [|done]. cbn [andb] in Hno.
  destruct (max_repeat SpaceChar k i (drop (length BODY_CLOSE) t))
    as [r|] eqn:E; [exfalso|done].
  apply max_repeat_sound in E as (ws & s' & Es & Hws & Hr).
  destruct (starts_with HTML_CLOSE s') eqn:Hh; [|by rewrite Hk in Hr].
  apply starts_with_split in Hh. rewrite Es, Hh in Hno.
  rewrite skip_spaces_app, starts_with_app in Hno;
    [done|done|apply literals_no_space].
Qed.
End Close.

(** [match] at a wrapper that is cut the lazy way. *)
Lemma match_at_lazy_cut o post i :
  lazy_cut [] o = true →
  match_at pattern i (wrapper o ++ post)
  = Some (MatchObj i (i + length (wrapper o)) (spans i o)).
Proof.
  destruct o as [x y a c ws z]. unfold lazy_cut.
  cbn [lead prolog attrs inner gap tail]. intros H.
  repeat (apply andb_prop in H as [H ?]).
  repeat match goal with H : negb _ = true |- _ =>
    apply negb_true_iff in H end.
  destruct literal_heads as (_ & Hu2 & Hu3 & Hu4 & Hu5 & _ & Hu7).
  unfold match_at, pattern, wrapper, open_boilerplate, close_boilerplate.
  cbn [lead prolog attrs inner gap tail].
  rewrite <- !app_assoc. cbn [rmatch].
  rewrite starts_with_app, drop_app_length.
  lazy_until Hu2 H5. lazy_until Hu3 H4. lazy_until Hu4 H3.
  apply min_repeat_first.
  { intros x1 x2 E Hne. apply close_fails.
    - intros j u Hf. by rewrite Hf.
    - destruct (closes_at (x2 ++ BODY_CLOSE ++ ws ++ HTML_CLOSE ++ z
                           ++ DIV_CLOSE ++ post)) eqn:Hc; [|done].
      apply closes_at_cut in Hc; [|done].
      by rewrite E, (closes_in_app x1 x2) in H2. }
  cbv beta. rewrite starts_with_app, drop_app_length.
  apply max_repeat_spaces_until; [done|done|].
  cbv beta. rewrite starts_with_app, drop_app_length.
  lazy_until Hu7 H0.
  unfold spans, open_boilerplate, close_boilerplate.
  cbn [lead prolog attrs inner gap tail].
  rewrite !length_app.
  repeat (f_equal; try lia).
Qed.

Lemma search_lazy_cut before o after :
  lazy_cut before o = true →
  search pattern (before ++ wrapper o ++ after)
  = Some (MatchObj (length before) (length before + length (wrapper o))
                   (spans (length before) o)).
Proof.
  intros Hcut. unfold search.
  assert (occurs DIV_OPEN before = false ∧ lazy_cut [] o = true) as [Hb Ho].
  { unfold lazy_cut in *. rewrite !andb_true_iff, !negb_true_iff in *.
    assert (occurs DIV_OPEN [] = false) by (vm_compute; done). tauto. }
  destruct literal_heads as (Hu1 & _).
  unfold wrapper at 1. rewrite <- !app_assoc.
  rewrite (search_from_skip pattern DIV_OPEN) by done.
  apply search_from_here. cbn [Nat.add].
  pose proof (match_at_lazy_cut o after (length before) Ho) as H.
  unfold wrapper at 1 in H. by rewrite <- !app_assoc in H.
Qed.

Lemma starts_with_app_l (w a b : text) :
  starts_with w a = true → starts_with w (a ++ b) = true.
Proof.
  intros [t ->]%starts_with_iff. rewrite <- app_assoc. apply starts_with_app.
Qed.

(** The first occurrence of [w] in [x ++ w ++ rest]. *)
Lemma first_cut (w x rest : text) :
  w ≠ [] →
  ∃ x1 z, x ++ w ++ rest = x1 ++ w ++ z ++ rest ∧ occurs w x1 = false.
Proof.
  intros Hw. induction x as [|c x (x1 & z0 & E & Hx1)].
  - exists [], []. split; [done|]. by destruct w.
  - destruct (starts_with w ((c :: x) ++ w ++ rest)) eqn:Hs.
    + apply starts_with_split in Hs.
      destruct (shift_window w (c :: x) rest _ Hs) as (z & Hz & _).
      exists [], z. split; [|by destruct w].
      rewrite Hs at 1. by rewrite Hz.
    + exists (c :: x1), z0. split.
      * rewrite <- !app_comm_cons. by rewrite E.
      * cbn [occurs]. rewrite Hx1, orb_false_r.
        destruct (starts_with w (c :: x1)) eqn:Hc; [|done].
        apply (starts_with_app_l _ _ (w ++ z0 ++ rest)) in Hc.
        rewrite <- !app_comm_cons in *. rewrite E in Hs. congruence.
Qed.

(** The first place where the closing boilerplate stands. *)
Lemma first_close (x ws rest : text) :
  forallb is_space ws = true →
  ∃ x1 ws1 z,
    x ++ BODY_CLOSE ++ ws ++ HTML_CLOSE ++ rest
    = x1 ++ BODY_CLOSE ++ ws1 ++ HTML_CLOSE ++ z ++ rest
    ∧ forallb is_space ws1 = true ∧ closes_in x1 = false.
Proof.
  intros Hws. induction x as [|c x (x1 & ws1 & z0 & E & Hws1 & Hx1)].
  - by exists [], ws, [].
  - destruct (closes_at ((c :: x) ++ BODY_CLOSE ++ ws ++ HTML_CLOSE ++ rest))
      eqn:Hc.
    + apply closes_at_cut in Hc; [|done].
      apply closes_at_split in Hc as (ws2 & r & -> & Hws2).
      exists [], ws2, (r ++ BODY_CLOSE ++ ws ++ HTML_CLOSE).
      split; [by rewrite <- !app_assoc|done].
    + exists (c :: x1), ws1, z0. split; [|split; [done|]].
      * rewrite <- !app_comm_cons. by rewrite E.
      * cbn [closes_in]. rewrite Hx1, orb_false_r.
        destruct (closes_at (c :: x1)) eqn:Hc1; [|done].
        apply (closes_at_app _ (BODY_CLOSE ++ ws1 ++ HTML_CLOSE ++ z0 ++ rest))
          in Hc1.
        rewrite <- !app_comm_cons in *. rewrite E in Hc. congruence.
Qed.

Lemma literals_not_empty :
  DIV_OPEN ≠ [] ∧ DOCTYPE ≠ [] ∧ BODY_OPEN ≠ [] ∧ GT ≠ [] ∧ DIV_CLOSE ≠ [].
Proof. vm_compute. repeat split; discriminate. Qed.

(** A wrapper around a nested document, however cut, can be cut the lazy
    way. *)
Lemma lazy_recut before o after :
  forallb is_space (gap o) = true →
  ∃ before' o' after',
    before ++ wrapper o ++ after = before' ++ wrapper o' ++ after'
    ∧ lazy_cut before' o' = true.
Proof.
  intros Hws. destruct o as [x y a c ws z].
  cbn [gap] in Hws.
  destruct literals_not_empty as (N1 & N2 & N3 & N4 & N5).
  unfold wrapper, open_boilerplate, close_boilerplate.
  cbn [lead prolog attrs inner gap tail]. rewrite <- !app_assoc.
  destruct (first_cut DIV_OPEN before
              (x ++ DOCTYPE ++ y ++ BODY_OPEN ++ a ++ GT ++ c ++ BODY_CLOSE
               ++ ws ++ HTML_CLOSE ++ z ++ DIV_CLOSE ++ after) N1)
    as (b1 & z1 & E1 & H1).
  rewrite E1, (app_assoc z1 x).
  destruct (first_cut DOCTYPE (z1 ++ x)
              (y ++ BODY_OPEN ++ a ++ GT ++ c ++ BODY_CLOSE
               ++ ws ++ HTML_CLOSE ++ z ++ DIV_CLOSE ++ after) N2)
    as (l1 & z2 & E2 & H2).
  rewrite E2, (app_assoc z2 y).
  destruct (first_cut BODY_OPEN (z2 ++ y)
              (a ++ GT ++ c ++ BODY_CLOSE
               ++ ws ++ HTML_CLOSE ++ z ++ DIV_CLOSE ++ after) N3)
    as (p1 & z3 & E3 & H3).
  rewrite E3, (app_assoc z3 a).
  destruct (first_cut GT (z3 ++ a)
              (c ++ BODY_CLOSE
               ++ ws ++ HTML_CLOSE ++ z ++ DIV_CLOSE ++ after) N4)
    as (a1 & z4 & E4 & H4).
  rewrite E4, (app_assoc z4 c).
  destruct (first_close (z4 ++ c) ws (z ++ DIV_CLOSE ++ after) Hws)
    as (i1 & ws1 & z5 & E5 & Hws1 & H5).
  rewrite E5, (app_assoc z5 z).
  destruct (first_cut DIV_CLOSE (z5 ++ z) after N5)
    as (t1 & z6 & E6 & H6).
  rewrite E6.
  exists b1, (Nested l1 p1 a1 i1 ws1 t1), (z6 ++ after).
  split; [by rewrite <- !app_assoc|].
  unfold lazy_cut. cbn [lead prolog attrs inner gap tail].
  by rewrite H1, H2, H3, H4, H5, H6, Hws1.
Qed.

Lemma lazy_cut_spaces before o :
  lazy_cut before o = true → forallb is_space (gap o) = true.
Proof. unfold lazy_cut. rewrite !andb_true_iff. tauto. Qed.

(** X10: the match, exactly. [pattern.search] finds a match exactly when
    the text holds a wrapper around a nested document, and the match is the
    lazy cut of the first one: it starts at the first wrapper open tag of the
    text, group 1 ends before the first DOCTYPE after that, group 2 ends
    with the first [>] after the first [<body] after that, group 3 ends
    before the first [</body>] that only white space parts from [</html>],
    and group 5 ends with the first [</div>] after that. The text written
    back is the text without groups 2 and 4 of that cut. *)
Theorem search_is_lazy_cut :
  (∀ content m,
     search pattern content = Some m →
     ∃ before o after,
       content = before ++ wrapper o ++ after
       ∧ lazy_cut before o = true
       ∧ m = MatchObj (length before) (length before + length (wrapper o))
                      (spans (length before) o)
       ∧ new_content content m = before ++ repaired o ++ after)
  ∧ (∀ before o after,
       lazy_cut before o = true →
       search pattern (before ++ wrapper o ++ after)
       = Some (MatchObj (length before) (length before + length (wrapper o))
                        (spans (length before) o))).
Proof.
  split; [|apply search_lazy_cut].
  intros content m Hs.
  destruct (search_pattern_sound _ _ Hs)
    as (before0 & o0 & after0 & E0 & Hws0 & _).
  destruct (lazy_recut before0 o0 after0 Hws0)
    as (before & o & after & E & Hcut).
  exists before, o, after. rewrite E0, E in *.
  pose proof (search_lazy_cut before o after Hcut) as Hs'.
  rewrite Hs in Hs'. injection Hs' as ->.
  split; [done|]. split; [done|]. split; [done|].
  apply new_content_repaired; try done; by apply group_spans.
Qed.

(** The loop raises when one of its files cannot be processed. *)
Lemma for_each_raises files :
  ∀ (d : gmap string node) tr n,
    NoDup files → forallb (processable d) files = false →
    ∃ e w', for_each files n (World (Some d) tr) = (Raised e, w').
Proof.
  induction files as [|name rest IH]; intros d tr n Hnd Hbad; [done|].
  apply NoDup_cons in Hnd as [Hnotin Hnd]. cbn [forallb] in Hbad.
  rewrite for_each_cons.
  destruct (processable d name) eqn:Hname.
  - cbn [andb] in Hbad.
    destruct (fix_nested_html_processable d tr name Hname)
      as (d1 & evs1 & Hfix & _ & _ & Hother & _).
    rewrite Hfix. apply IH; [done|].
    destruct (forallb (processable d1) rest) eqn:H1; [|done].
    rewrite <- Hbad. symmetry. apply forallb_forall.
    intros x Hx. rewrite forallb_forall in H1.
    specialize (H1 x Hx). apply list_elem_of_In in Hx.
    unfold processable in *. rewrite Hother in H1; [done|]. by intros ->.
  - unfold processable in Hname.
    destruct (d !! name) as [[c wr|e|c e rm]|] eqn:Hd.
    + destruct (search pattern c) as [m|] eqn:Hs.
      * rewrite bool_decide_eq_true_2, orb_false_r in Hname by eauto.
        subst wr. rewrite (fix_nested_html_read_only d tr name c m Hd Hs).
        by eauto.
      * rewrite bool_decide_eq_false_2 in Hname by (by intros [? ?]).
        by rewrite orb_true_r in Hname.
    + rewrite (fix_nested_html_unreadable d tr name e Hd). by eauto.
    + destruct (search pattern c) as [m|] eqn:Hs.
      * rewrite (fix_nested_html_fragile_match d tr name c e rm m Hd Hs).
        by eauto.
      * by rewrite bool_decide_eq_false_2 in Hname by (by intros [? ?]).
    + rewrite (fix_nested_html_missing d tr name Hd). by eauto.
Qed.

(** X11: when [main] ends normally. In a directory that exists, [main]
    returns exactly when every file whose name ends in [.html] can be read
    and every one of them that the pattern matches can be written;
    otherwise it raises. *)
Theorem main_returns_iff_processable (d : gmap string node) tr :
  ((∃ w', main (World (Some d) tr) = (Returned (), w'))
   ↔ forallb (processable d) (html_files d) = true)
  ∧ ((∃ e w', main (World (Some d) tr) = (Raised e, w'))
     ↔ forallb (processable d) (html_files d) = false).
Proof.
  destruct (html_files_spec d) as (_ & Hnd & _).
  destruct (forallb (processable d) (html_files d)) eqn:Hok.
  - destruct (for_each_ok (html_files d) d tr 0 Hnd Hok)
      as (d' & evs & Hloop & _).
    rewrite main_in_dir, Hloop. split.
    + split; [done|]. intros _. by eauto.
    + split; [|done]. by intros (e & w' & ?).
  - destruct (for_each_raises (html_files d) d tr 0 Hnd Hok)
      as (e & w' & Hloop).
    rewrite main_in_dir, Hloop. split.
    + split; [|done]. by intros (w'' & ?).
    + split; [done|]. intros _. by eauto.
Qed.

(** ** A write that fails half way *)


